(** * SpaceX launch-records dashboard: the data path of [spacex-dash-app.py]

    The program loads a table of launch records once
    ([spacex_df = pd.read_csv(...)]), computes the payload bounds that seed the
    range slider, and registers two Dash callbacks:

    - [update_pie entered_site]: success counts per site, or success/failure
      counts of one site;
    - [update_scatter entered_site selected_payload]: the records in a payload
      range, optionally restricted to one site.

    This file embeds that data path.  A data frame is the list of its rows in
    index order.  The column ['Payload Mass (kg)'] is a float column; a finite
    float is a rational number and pandas compares floats exactly, so the
    column is modelled over [Q] (a missing cell, NaN, is not modelled).  The
    column ['class'] is an integer column ([Z]), the two remaining columns are
    strings.  Styling ([apply_dark_style], [update_traces], the page layout)
    carries no data and is left out, except for the titles. *)

From Stdlib Require Import List String ZArith QArith Qround Bool Lia.
From Stdlib Require Import DecimalString DecimalPos DecimalZ.
From Stdlib Require Import Sorted Permutation OrdersEx RelationClasses.
Import ListNotations.

Local Open Scope string_scope.
Local Open Scope Z_scope.

(* ------------------------------------------------------------------ *)
(** ** Exceptions *)

Inductive exception : Type :=
| ValueError   (* unpacking a sequence of the wrong length; int() of NaN *)
| TypeError.   (* an operation applied to an object of the wrong kind *)

Inductive result (A : Type) : Type :=
| Ok (a : A)
| Raise (e : exception).

Arguments Ok {A} a.
Arguments Raise {A} e.

Definition bind {A B : Type} (m : result A) (k : A -> result B) : result B :=
  match m with
  | Ok a => k a
  | Raise e => Raise e
  end.

Notation "x <- m ;; k" := (bind m (fun x => k))
  (at level 61, m at next level, right associativity).

(* ------------------------------------------------------------------ *)
(** ** The table *)

(** One row of [spacex_launch_dash.csv], restricted to the four columns the
    callbacks read. *)
Record LaunchRecord : Type := {
  Launch_Site : string;                (* 'Launch Site' *)
  Payload_Mass_kg : Q;                 (* 'Payload Mass (kg)' *)
  class : Z;                           (* 'class' *)
  Booster_Version_Category : string    (* 'Booster Version Category' *)
}.

Definition DataFrame : Type := list LaunchRecord.

(* ------------------------------------------------------------------ *)
(** ** The pandas operations the program calls *)

(** [df[mask]]: the rows at which the boolean mask holds, in index order. *)
Definition getitem_mask (df : DataFrame) (mask : LaunchRecord -> bool) : DataFrame :=
  filter mask df.

(** Keys that [groupby] can sort: a three-way comparison that decides a
    strict total order. *)
Class KeyOrder (K : Type) : Type := {
  key_compare : K -> K -> comparison;
  key_lt : K -> K -> Prop;
  key_compare_spec :
    forall x y, CompareSpec (x = y) (key_lt x y) (key_lt y x) (key_compare x y);
  key_lt_strict : StrictOrder key_lt
}.

(** Python compares [str] by code point, which on UTF-8 bytes is the
    lexicographic order of the bytes. *)
#[export] Instance string_KeyOrder : KeyOrder string := {|
  key_compare := String_as_OT.compare;
  key_lt := String_as_OT.lt;
  key_compare_spec := String_as_OT.compare_spec;
  key_lt_strict := String_as_OT.lt_strorder
|}.

#[export] Instance Z_KeyOrder : KeyOrder Z := {|
  key_compare := Z.compare;
  key_lt := Z.lt;
  key_compare_spec := Z.compare_spec;
  key_lt_strict := Z.lt_strorder
|}.

Section GroupBy.
Context {K : Type} `{KeyOrder K}.

(** One more row for group [k]: the groups are kept in ascending key
    order, a new key is inserted at its place with size 1. *)
Fixpoint bump (k : K) (groups : list (K * nat)) : list (K * nat) :=
  match groups with
  | [] => [(k, 1%nat)]
  | (k', n) :: rest =>
      match key_compare k k' with
      | Lt => (k, 1%nat) :: groups
      | Eq => (k', S n) :: rest
      | Gt => (k', n) :: bump k rest
      end
  end.

(** [df.groupby(col).size().reset_index(name=...)] on the key column
    [keys]: [groupby] is called with its defaults ([sort=True]), so there
    is one row per distinct key, in ascending key order, holding the number
    of rows of that key. *)
Definition groupby_size (keys : list K) : list (K * nat) :=
  fold_left (fun groups k => bump k groups) keys [].

(** The distinct keys in the order of their first occurrence; this is the
    order [groupby(..., sort=False)] would give, and the order the
    specification words as "insertion/first-seen order". *)
Fixpoint first_seen_from (seen : list K) (keys : list K) : list K :=
  match keys with
  | [] => []
  | k :: rest =>
      if existsb (fun k' => match key_compare k k' with Eq => true | _ => false end) seen
      then first_seen_from seen rest
      else k :: first_seen_from (k :: seen) rest
  end.

Definition first_seen (keys : list K) : list K := first_seen_from [] keys.
End GroupBy.

(** [Series.max()] and [Series.min()] of a float column; [None] is NaN, the
    value pandas returns for an empty column. *)
Definition series_max (xs : list Q) : option Q :=
  match xs with
  | [] => None
  | x :: rest => Some (fold_left (fun m y => if Qle_bool m y then y else m) rest x)
  end.

Definition series_min (xs : list Q) : option Q :=
  match xs with
  | [] => None
  | x :: rest => Some (fold_left (fun m y => if Qle_bool y m then y else m) rest x)
  end.

(** Python's [int(x)] on a float: truncation toward zero; [int(nan)] raises
    [ValueError]. *)
Definition py_int (x : option Q) : result Z :=
  match x with
  | None => Raise ValueError
  | Some q => Ok (Z.quot (Qnum q) (Zpos (Qden q)))
  end.

(* ------------------------------------------------------------------ *)
(** ** Load data + compute payload bounds *)

Definition max_payload (spacex_df : DataFrame) : result Z :=
  py_int (series_max (map Payload_Mass_kg spacex_df)).

Definition min_payload (spacex_df : DataFrame) : result Z :=
  py_int (series_min (map Payload_Mass_kg spacex_df)).

(** The values of the site dropdown. *)
Definition ALL : string := "ALL".

Definition site_dropdown_options : list string :=
  [ALL; "CCAFS SLC-40"; "VAFB SLC-4E"; "KSC LC-39A"; "CCAFS LC-40"].

(* ------------------------------------------------------------------ *)
(** ** The pie callback *)

(** What [px.pie(df, values=..., names=...)] receives: the two columns, in
    the row order of [df], and the title set afterwards.  A name is [None]
    where the column holds NaN. *)
Record pie_figure : Type := {
  pie_names : list (option string);
  pie_values : list nat;
  pie_hole : Q;
  pie_title : string
}.

(** [spacex_df[spacex_df['class'] == 1].groupby('Launch Site').size()
      .reset_index(name='success_count')] *)
Definition success_counts (spacex_df : DataFrame) : list (string * nat) :=
  groupby_size
    (map Launch_Site (getitem_mask spacex_df (fun r => class r =? 1))).

(** [df['class'].map({1: 'Success', 0: 'Failure'})]: a value that is not a
    key of the dictionary maps to NaN. *)
Definition outcome_of_class (c : Z) : option string :=
  if c =? 1 then Some "Success"
  else if c =? 0 then Some "Failure"
  else None.

(** [spacex_df[spacex_df['Launch Site'] == entered_site].groupby('class')
      .size().reset_index(name='count')] *)
Definition class_counts (spacex_df : DataFrame) (entered_site : string)
  : list (Z * nat) :=
  groupby_size
    (map class
       (getitem_mask spacex_df (fun r => (Launch_Site r =? entered_site)%string))).

Definition update_pie (spacex_df : DataFrame) (entered_site : string) : pie_figure :=
  if (entered_site =? ALL)%string then
    let df := success_counts spacex_df in
    {| pie_names := map (fun row => Some (fst row)) df;
       pie_values := map snd df;
       pie_hole := 35 # 100;
       pie_title := "Successful Launches by Site (All Sites)" |}
  else
    let df := class_counts spacex_df entered_site in
    let outcome := map (fun row => outcome_of_class (fst row)) df in
    {| pie_names := outcome;
       pie_values := map snd df;
       pie_hole := 4 # 10;
       pie_title := "Success vs Failure — " ++ entered_site |}.

(* ------------------------------------------------------------------ *)
(** ** The scatter callback *)

(** What [px.scatter(dff, x=..., y=..., color=...)] receives: the filtered
    frame, and the title set afterwards.  The reference line at y = 0.5 is
    added whatever the data. *)
Record scatter_figure : Type := {
  scatter_data : DataFrame;
  scatter_title : string;
  scatter_hline : Q
}.

(** [low, high = selected_payload] *)
Definition unpack2 (selected_payload : list Q) : result (Q * Q) :=
  match selected_payload with
  | [low; high] => Ok (low, high)
  | _ => Raise ValueError
  end.

Definition update_scatter (spacex_df : DataFrame) (entered_site : string)
    (selected_payload : list Q) : result scatter_figure :=
  lh <- unpack2 selected_payload ;;
  let low := fst lh in
  let high := snd lh in
  let dff :=
    getitem_mask spacex_df
      (fun r => Qle_bool low (Payload_Mass_kg r) && Qle_bool (Payload_Mass_kg r) high) in
  let dff :=
    if negb (entered_site =? ALL)%string
    then getitem_mask dff (fun r => (Launch_Site r =? entered_site)%string)
    else dff in
  Ok {| scatter_data := dff;
        scatter_title :=
          "Payload vs Mission Outcome"
          ++ (if negb (entered_site =? ALL)%string then " — " ++ entered_site else "");
        scatter_hline := 1 # 2 |}.

(* ------------------------------------------------------------------ *)
(** ** The callback wiring *)

(** The component properties the two callbacks read and write.  The pie
    callback has one [Input], the value of ['site-dropdown']; the scatter
    callback has two, that value and the value of ['slider-payload']. *)
Record dash_state : Type := {
  site_dropdown : string;
  slider_payload : list Q;
  success_pie_chart : pie_figure;
  success_payload_scatter_chart : result scatter_figure
}.

Inductive event : Type :=
| SiteSelected (value : string)
| PayloadSelected (value : list Q).

(** A changed property fires the callbacks that list it as an [Input]; each
    callback is called with the current values of all its inputs and its
    return value becomes the output property. *)
Definition dispatch (spacex_df : DataFrame) (st : dash_state) (ev : event) : dash_state :=
  match ev with
  | SiteSelected value =>
      {| site_dropdown := value;
         slider_payload := slider_payload st;
         success_pie_chart := update_pie spacex_df value;
         success_payload_scatter_chart :=
           update_scatter spacex_df value (slider_payload st) |}
  | PayloadSelected value =>
      {| site_dropdown := site_dropdown st;
         slider_payload := value;
         success_pie_chart := success_pie_chart st;
         success_payload_scatter_chart :=
           update_scatter spacex_df (site_dropdown st) value |}
  end.

Definition run (spacex_df : DataFrame) (st : dash_state) (evs : list event) : dash_state :=
  fold_left (dispatch spacex_df) evs st.

(** The page as first served: the layout's initial values
    ([value='ALL'], [value=[min_payload, max_payload]]) and the figures of the
    initial call of both callbacks. *)
Definition initial_state (spacex_df : DataFrame) : result dash_state :=
  hi <- max_payload spacex_df ;;
  lo <- min_payload spacex_df ;;
  let value := [inject_Z lo; inject_Z hi] in
  Ok {| site_dropdown := ALL;
        slider_payload := value;
        success_pie_chart := update_pie spacex_df ALL;
        success_payload_scatter_chart := update_scatter spacex_df ALL value |}.

(** The site selections of a trace, in order. *)
Fixpoint site_selections (evs : list event) : list string :=
  match evs with
  | [] => []
  | SiteSelected value :: rest => value :: site_selections rest
  | PayloadSelected _ :: rest => site_selections rest
  end.

(* ------------------------------------------------------------------ *)
(** ** The callbacks over a store of objects

    [spacex_df] is a module-level name bound to one mutable [DataFrame]
    object; the callbacks build further objects and the pie callback assigns
    a column into one of them ([df['outcome'] = ...]).  To say which object
    that assignment writes, the callbacks are given a second time over an
    explicit store: every pandas call that returns a new object allocates,
    names are references, and column assignment updates the referenced
    object in place. *)
Module Store.

Inductive object : Type :=
| FrameObj (rows : DataFrame)
| SiteCountsObj (rows : list (string * nat))
| ClassCountsObj (rows : list (Z * nat)) (outcome : option (list (option string))).

Definition ref : Type := nat.
Definition heap : Type := list object.

(** State and exceptions: a raised exception keeps the store as it was
    when it was raised. *)
Definition M (A : Type) : Type := heap -> result A * heap.

Definition ret {A : Type} (a : A) : M A := fun h => (Ok a, h).

Definition raise {A : Type} (e : exception) : M A := fun h => (Raise e, h).

Definition bindM {A B : Type} (m : M A) (k : A -> M B) : M B :=
  fun h =>
    match m h with
    | (Ok a, h') => k a h'
    | (Raise e, h') => (Raise e, h')
    end.

Notation "x <~ m ;; k" := (bindM m (fun x => k))
  (at level 61, m at next level, right associativity).

Definition lift {A : Type} (r : result A) : M A := fun h => (r, h).

Definition alloc (o : object) : M ref :=
  fun h => (Ok (List.length h), (h ++ [o])%list).

Definition read (r : ref) : M object :=
  fun h =>
    match nth_error h r with
    | Some o => (Ok o, h)
    | None => (Raise TypeError, h)
    end.

Fixpoint set_nth (h : heap) (r : ref) (o : object) : heap :=
  match h, r with
  | [], _ => []
  | _ :: rest, O => o :: rest
  | o' :: rest, S r' => o' :: set_nth rest r' o
  end.

Definition write (r : ref) (o : object) : M unit :=
  fun h => (Ok tt, set_nth h r o).

(** The module-level name [spacex_df]: the first object of the store. *)
Definition spacex_df : ref := 0%nat.

(** After [pd.read_csv]. *)
Definition loaded (rows : DataFrame) : heap := [FrameObj rows].

(** [df[mask]] returns a new frame. *)
Definition getitem_mask (df : ref) (mask : LaunchRecord -> bool) : M ref :=
  o <~ read df ;;
  match o with
  | FrameObj rows => alloc (FrameObj (filter mask rows))
  | _ => raise TypeError
  end.

(** [df.groupby('Launch Site').size().reset_index(name=...)] returns a
    new frame. *)
Definition groupby_site_size (df : ref) : M ref :=
  o <~ read df ;;
  match o with
  | FrameObj rows => alloc (SiteCountsObj (groupby_size (map Launch_Site rows)))
  | _ => raise TypeError
  end.

(** [df.groupby('class').size().reset_index(name='count')] returns a new
    frame. *)
Definition groupby_class_size (df : ref) : M ref :=
  o <~ read df ;;
  match o with
  | FrameObj rows => alloc (ClassCountsObj (groupby_size (map class rows)) None)
  | _ => raise TypeError
  end.

(** [df['outcome'] = df['class'].map({1: 'Success', 0: 'Failure'})]
    assigns the column into the object [df] names. *)
Definition setitem_outcome (df : ref) : M unit :=
  o <~ read df ;;
  match o with
  | ClassCountsObj rows _ =>
      write df (ClassCountsObj rows (Some (map (fun row => outcome_of_class (fst row)) rows)))
  | _ => raise TypeError
  end.

Definition update_pie (entered_site : string) : M pie_figure :=
  if (entered_site =? ALL)%string then
    successes <~ getitem_mask spacex_df (fun r => class r =? 1) ;;
    df <~ groupby_site_size successes ;;
    o <~ read df ;;
    match o with
    | SiteCountsObj rows =>
        ret {| pie_names := map (fun row => Some (fst row)) rows;
               pie_values := map snd rows;
               pie_hole := 35 # 100;
               pie_title := "Successful Launches by Site (All Sites)" |}
    | _ => raise TypeError
    end
  else
    at_site <~ getitem_mask spacex_df
                 (fun r => (Launch_Site r =? entered_site)%string) ;;
    df <~ groupby_class_size at_site ;;
    _ <~ setitem_outcome df ;;
    o <~ read df ;;
    match o with
    | ClassCountsObj rows (Some outcome) =>
        ret {| pie_names := outcome;
               pie_values := map snd rows;
               pie_hole := 4 # 10;
               pie_title := "Success vs Failure — " ++ entered_site |}
    | _ => raise TypeError
    end.

Definition update_scatter (entered_site : string) (selected_payload : list Q)
  : M scatter_figure :=
  lh <~ lift (unpack2 selected_payload) ;;
  let low := fst lh in
  let high := snd lh in
  dff <~ getitem_mask spacex_df
           (fun r => Qle_bool low (Payload_Mass_kg r)
                     && Qle_bool (Payload_Mass_kg r) high) ;;
  dff <~ (if negb (entered_site =? ALL)%string
          then getitem_mask dff (fun r => (Launch_Site r =? entered_site)%string)
          else ret dff) ;;
  o <~ read dff ;;
  match o with
  | FrameObj rows =>
      ret {| scatter_data := rows;
             scatter_title :=
               "Payload vs Mission Outcome"
               ++ (if negb (entered_site =? ALL)%string
                   then " — " ++ entered_site else "");
             scatter_hline := 1 # 2 |}
  | _ => raise TypeError
  end.

End Store.

(* ------------------------------------------------------------------ *)
(** ** Selections and sample tables *)

(** The selections the specification calls invalid: a payload pair with
    [low > high], or a site value outside the values of the dropdown. *)
Definition invalid_selection (site : string) (selected_payload : list Q) : Prop :=
  (exists low high, selected_payload = [low; high] /\ (high < low)%Q)
  \/ ~ In site site_dropdown_options.

Definition launch (site : string) (payload : Q) (c : Z) (booster : string)
  : LaunchRecord :=
  {| Launch_Site := site;
     Payload_Mass_kg := payload;
     class := c;
     Booster_Version_Category := booster |}.

(** The example table of the specification, on two sites of the dropdown. *)
Definition three_launches : DataFrame :=
  [launch "CCAFS LC-40" (500 # 1) 1 "v1.0";
   launch "CCAFS LC-40" (900 # 1) 0 "v1.0";
   launch "KSC LC-39A" (500 # 1) 1 "v1.1"].

(** Two successes, the site that sorts last flown first. *)
Definition ksc_first : DataFrame :=
  [launch "KSC LC-39A" (500 # 1) 1 "FT";
   launch "CCAFS LC-40" (900 # 1) 1 "FT"].

(** A table whose heaviest payload, 9600.5 kg, is not a whole number. *)
Definition fractional_maximum : DataFrame :=
  [launch "CCAFS LC-40" (0 # 1) 0 "v1.0";
   launch "KSC LC-39A" (19201 # 2) 1 "B5"].

(** The page as first served for the example table. *)
Definition three_launches_page : dash_state :=
  let value := [inject_Z 500; inject_Z 900] in
  {| site_dropdown := ALL;
     slider_payload := value;
     success_pie_chart := update_pie three_launches ALL;
     success_payload_scatter_chart := update_scatter three_launches ALL value |}.

(* ------------------------------------------------------------------ *)
(** ** The payload slider of the layout *)

(** [range(start, stop, step)] for a positive [step]: the numbers
    [start + i * step] below [stop]. *)
Definition py_range (start stop : Z) (step : positive) : list Z :=
  map (fun i => start + Z.of_nat i * Zpos step)
    (seq 0 (Z.to_nat ((stop - start + Zpos step - 1) / Zpos step))).

(** [str(i)] of an integer: its decimal digits, with a leading minus sign
    for a negative number. *)
Definition py_str (i : Z) : string := NilZero.string_of_int (Z.to_int i).

Definition step : positive := 1200%positive.

(** [marks = {i: str(i) for i in range(0, max_payload + step, step)}], the
    items in insertion order; [hi] is the value of [max_payload]. *)
Definition marks (hi : Z) : list (Z * string) :=
  map (fun i => (i, py_str i)) (py_range 0 (hi + Zpos step) step).

(** The arguments of [dcc.RangeSlider(id='slider-payload', ...)]. *)
Record RangeSlider : Type := {
  rs_min : Z;
  rs_max : Z;
  rs_step : Z;
  rs_marks : list (Z * string);
  rs_value : list Z
}.

Definition slider_payload_component (spacex_df : DataFrame) : result RangeSlider :=
  hi <- max_payload spacex_df ;;
  lo <- min_payload spacex_df ;;
  Ok {| rs_min := 0;
        rs_max := Z.max 10000 hi;
        rs_step := 100;
        rs_marks := marks hi;
        rs_value := [lo; hi] |}.

(* ------------------------------------------------------------------ *)
(** ** Notions used to state properties *)

Section GroupSizes.
Context {K : Type} `{KeyOrder K}.

Definition key_eqb (a b : K) : bool :=
  match key_compare a b with Eq => true | _ => false end.

(** The number of rows whose key is [k]. *)
Definition group_size (k : K) (keys : list K) : nat :=
  List.length (filter (key_eqb k) keys).

(** The sizes recorded for key [k], added up. *)
Definition group_total (k : K) (groups : list (K * nat)) : nat :=
  list_sum (map snd (filter (fun row => key_eqb k (fst row)) groups)).
End GroupSizes.

(** [l] is [l'] with some elements left out, the others in their order. *)
Inductive subsequence {A : Type} : list A -> list A -> Prop :=
| subsequence_nil : subsequence [] []
| subsequence_skip (x : A) (l l' : list A) :
    subsequence l l' -> subsequence l (x :: l')
| subsequence_keep (x : A) (l l' : list A) :
    subsequence l l' -> subsequence (x :: l) (x :: l').

(** Both figures are the ones the callbacks return on the values the two
    controls hold. *)
Definition figures_current (spacex_df : DataFrame) (st : dash_state) : Prop :=
  success_pie_chart st = update_pie spacex_df (site_dropdown st) /\
  success_payload_scatter_chart st
  = update_scatter spacex_df (site_dropdown st) (slider_payload st).

(** The last selection of each control along a trace, [None] if the control
    was not touched. *)
Fixpoint last_site (evs : list event) : option string :=
  match evs with
  | [] => None
  | SiteSelected value :: rest =>
      match last_site rest with Some v => Some v | None => Some value end
  | PayloadSelected _ :: rest => last_site rest
  end.

Fixpoint last_payload (evs : list event) : option (list Q) :=
  match evs with
  | [] => None
  | PayloadSelected value :: rest =>
      match last_payload rest with Some v => Some v | None => Some value end
  | SiteSelected _ :: rest => last_payload rest
  end.

(** A table of launches that all succeeded or failed, with payloads that
    are not negative. *)
Definition binary_classes (spacex_df : DataFrame) : Prop :=
  forall r, In r spacex_df -> class r = 0 \/ class r = 1.

Definition payloads_nonnegative (spacex_df : DataFrame) : Prop :=
  forall r, In r spacex_df -> (0 <= Payload_Mass_kg r)%Q.

(* ================================================================== *)
(** * Properties *)

(* ------------------------------------------------------------------ *)
(** ** The example table *)

(** One success per site; the failure of the first site is no slice. *)
Example three_launches_pie_all :
  (pie_names (update_pie three_launches ALL),
   pie_values (update_pie three_launches ALL))
  = ([Some "CCAFS LC-40"; Some "KSC LC-39A"], [1%nat; 1%nat]).
Proof. reflexivity. Qed.

(** One failure and one success at the first site, the failure first. *)
Example three_launches_pie_site :
  (pie_names (update_pie three_launches "CCAFS LC-40"),
   pie_values (update_pie three_launches "CCAFS LC-40"))
  = ([Some "Failure"; Some "Success"], [1%nat; 1%nat]).
Proof. reflexivity. Qed.

(** The two 500 kg launches are the records in [0, 600], in table order. *)
Example three_launches_scatter_all :
  exists fig,
    update_scatter three_launches ALL [0 # 1; 600 # 1] = Ok fig /\
    map (fun r => (Payload_Mass_kg r, class r, Booster_Version_Category r))
      (scatter_data fig)
    = [(500 # 1, 1, "v1.0"); (500 # 1, 1, "v1.1")].
Proof. eexists. split; reflexivity. Qed.

Example three_launches_scatter_site :
  exists fig,
    update_scatter three_launches "KSC LC-39A" [0 # 1; 1000 # 1] = Ok fig /\
    map (fun r => (Payload_Mass_kg r, class r, Booster_Version_Category r))
      (scatter_data fig)
    = [(500 # 1, 1, "v1.1")].
Proof. eexists. split; reflexivity. Qed.

(** A slider value that is not a pair makes the scatter callback raise. *)
Example update_scatter_unpack_error :
  update_scatter three_launches ALL [0 # 1] = Raise ValueError.
Proof. reflexivity. Qed.

Example three_launches_initial_state :
  initial_state three_launches = Ok three_launches_page.
Proof. reflexivity. Qed.

(* ------------------------------------------------------------------ *)
(** ** [groupby(...).size()] *)

Section GroupByFacts.
Context {K : Type} `{KeyOrder K}.

Lemma key_compare_eq (x y : K) : key_compare x y = Eq -> x = y.
Proof.
  destruct (key_compare_spec x y) as [E | L | L]; intro C; try discriminate C.
  exact E.
Qed.

Lemma key_compare_lt (x y : K) : key_compare x y = Lt -> key_lt x y.
Proof.
  destruct (key_compare_spec x y) as [E | L | L]; intro C; try discriminate C.
  exact L.
Qed.

Lemma key_compare_gt (x y : K) : key_compare x y = Gt -> key_lt y x.
Proof.
  destruct (key_compare_spec x y) as [E | L | L]; intro C; try discriminate C.
  exact L.
Qed.

Lemma key_lt_irrefl (x : K) : ~ key_lt x x.
Proof. apply (@StrictOrder_Irreflexive _ _ key_lt_strict). Qed.

Lemma key_lt_trans (x y z : K) : key_lt x y -> key_lt y z -> key_lt x z.
Proof. apply (@StrictOrder_Transitive _ _ key_lt_strict). Qed.

Lemma key_compare_refl (x : K) : key_compare x x = Eq.
Proof.
  destruct (key_compare_spec x x) as [E | L | L]; trivial;
    destruct (key_lt_irrefl _ L).
Qed.

(** Every row of the key column lands in exactly one group. *)
Lemma bump_sum (k : K) (groups : list (K * nat)) :
  list_sum (map snd (bump k groups)) = S (list_sum (map snd groups)).
Proof.
  induction groups as [| [k' n] rest IH]; simpl.
  - reflexivity.
  - destruct (key_compare k k'); simpl.
    + reflexivity.
    + reflexivity.
    + rewrite IH. lia.
Qed.

Lemma fold_bump_sum (keys : list K) (groups : list (K * nat)) :
  list_sum (map snd (fold_left (fun g k => bump k g) keys groups))
  = (List.length keys + list_sum (map snd groups))%nat.
Proof.
  revert groups.
  induction keys as [| k rest IH]; intro groups; simpl.
  - reflexivity.
  - rewrite IH, bump_sum. lia.
Qed.

Lemma groupby_size_sum (keys : list K) :
  list_sum (map snd (groupby_size keys)) = List.length keys.
Proof.
  unfold groupby_size. rewrite fold_bump_sum. simpl. lia.
Qed.

(** The groups are the keys that occur. *)
Lemma bump_keys (k x : K) (groups : list (K * nat)) :
  In x (map fst (bump k groups)) <-> x = k \/ In x (map fst groups).
Proof.
  induction groups as [| [k' n] rest IH]; simpl.
  - intuition.
  - destruct (key_compare k k') eqn:C; simpl.
    + apply key_compare_eq in C. subst k'. intuition.
    + intuition.
    + rewrite IH. intuition.
Qed.

Lemma fold_bump_keys (keys : list K) (x : K) (groups : list (K * nat)) :
  In x (map fst (fold_left (fun g k => bump k g) keys groups))
  <-> In x keys \/ In x (map fst groups).
Proof.
  revert groups.
  induction keys as [| k rest IH]; intro groups; simpl.
  - intuition.
  - rewrite IH, bump_keys. intuition.
Qed.

Lemma groupby_size_keys (keys : list K) (x : K) :
  In x (map fst (groupby_size keys)) <-> In x keys.
Proof.
  unfold groupby_size. rewrite fold_bump_keys. simpl. intuition.
Qed.

(** No group is empty. *)
Lemma bump_positive (k : K) (groups : list (K * nat)) :
  Forall (fun n => 1 <= n)%nat (map snd groups) ->
  Forall (fun n => 1 <= n)%nat (map snd (bump k groups)).
Proof.
  induction groups as [| [k' n] rest IH]; simpl; intro P.
  - repeat constructor.
  - inversion P as [| ? ? Pn Prest]; subst.
    destruct (key_compare k k'); simpl; constructor; auto with arith.
Qed.

Lemma groupby_size_positive (keys : list K) :
  Forall (fun n => 1 <= n)%nat (map snd (groupby_size keys)).
Proof.
  unfold groupby_size.
  assert (G : Forall (fun n => 1 <= n)%nat (map snd (@nil (K * nat))))
    by constructor.
  revert G. generalize (@nil (K * nat)).
  induction keys as [| k rest IH]; intros groups G; simpl.
  - exact G.
  - apply IH, bump_positive, G.
Qed.

(** The groups come in strictly ascending key order. *)
Lemma bump_HdRel (a k : K) (groups : list (K * nat)) :
  key_lt a k ->
  HdRel key_lt a (map fst groups) ->
  HdRel key_lt a (map fst (bump k groups)).
Proof.
  intros L Hd.
  destruct groups as [| [k' n] rest]; simpl.
  - constructor. exact L.
  - inversion Hd; subst.
    destruct (key_compare k k'); simpl; constructor; assumption.
Qed.

Lemma bump_sorted (k : K) (groups : list (K * nat)) :
  Sorted key_lt (map fst groups) ->
  Sorted key_lt (map fst (bump k groups)).
Proof.
  induction groups as [| [k' n] rest IH]; simpl; intro S.
  - repeat constructor.
  - inversion S as [| ? ? Srest Hd]; subst.
    destruct (key_compare k k') eqn:C; simpl.
    + constructor; assumption.
    + constructor.
      * constructor; assumption.
      * constructor. apply key_compare_lt, C.
    + constructor.
      * apply IH, Srest.
      * apply bump_HdRel; [apply key_compare_gt, C | exact Hd].
Qed.

Lemma groupby_size_sorted (keys : list K) :
  Sorted key_lt (map fst (groupby_size keys)).
Proof.
  unfold groupby_size.
  assert (G : Sorted key_lt (map fst (@nil (K * nat)))) by constructor.
  revert G. generalize (@nil (K * nat)).
  induction keys as [| k rest IH]; intros groups G; simpl.
  - exact G.
  - apply IH, bump_sorted, G.
Qed.

Lemma sorted_NoDup (l : list K) : Sorted key_lt l -> NoDup l.
Proof.
  intro S.
  apply Sorted_StronglySorted in S; [| exact key_lt_trans].
  induction S as [| a l S IH F]; constructor.
  - intro I. rewrite Forall_forall in F.
    exact (key_lt_irrefl a (F a I)).
  - exact IH.
Qed.

Lemma groupby_size_NoDup (keys : list K) :
  NoDup (map fst (groupby_size keys)).
Proof. apply sorted_NoDup, groupby_size_sorted. Qed.

(** Two strictly ascending lists with the same elements are the same
    list: the ascending order leaves no freedom. *)
Lemma sorted_unique (l1 l2 : list K) :
  Sorted key_lt l1 -> Sorted key_lt l2 ->
  (forall x, In x l1 <-> In x l2) ->
  l1 = l2.
Proof.
  intros S1 S2.
  apply Sorted_StronglySorted in S1; [| exact key_lt_trans].
  apply Sorted_StronglySorted in S2; [| exact key_lt_trans].
  revert l2 S2.
  induction S1 as [| a l1 S1 IH F1]; intros l2 S2 E.
  - destruct l2 as [| b l2]; trivial.
    destruct (proj2 (E b) (or_introl eq_refl)).
  - destruct S2 as [| b l2 S2 F2].
    + destruct (proj1 (E a) (or_introl eq_refl)).
    + rewrite Forall_forall in F1, F2.
      assert (a = b) as ->.
      { destruct (proj1 (E a) (or_introl eq_refl)) as [-> | Ia]; trivial.
        destruct (proj2 (E b) (or_introl eq_refl)) as [-> | Ib]; trivial.
        destruct (key_lt_irrefl a).
        apply key_lt_trans with b; [apply F1, Ib | apply F2, Ia]. }
      f_equal. apply IH; trivial.
      intro x. split; intro I.
      * destruct (proj1 (E x) (or_intror I)) as [<- | I']; trivial.
        destruct (key_lt_irrefl _ (F1 _ I)).
      * destruct (proj2 (E x) (or_intror I)) as [<- | I']; trivial.
        destruct (key_lt_irrefl _ (F2 _ I)).
Qed.

(** First-seen order: the distinct keys, each once. *)
Lemma seen_test (k : K) (seen : list K) :
  existsb (fun k' => match key_compare k k' with Eq => true | _ => false end) seen
  = true <-> In k seen.
Proof.
  rewrite existsb_exists. split.
  - intros [k' [I C]]. destruct (key_compare k k') eqn:E; try discriminate C.
    apply key_compare_eq in E. subst. exact I.
  - intro I. exists k. split; trivial. rewrite key_compare_refl. reflexivity.
Qed.

Lemma first_seen_from_In (keys seen : list K) (x : K) :
  In x (first_seen_from seen keys) <-> In x keys /\ ~ In x seen.
Proof.
  revert seen.
  induction keys as [| k rest IH]; intro seen; simpl.
  - intuition.
  - destruct (existsb _ seen) eqn:T.
    + apply seen_test in T. rewrite IH. intuition. subst. contradiction.
    + assert (N : ~ In k seen).
      { intro I. apply seen_test in I. congruence. }
      simpl. rewrite IH. simpl. intuition; subst; intuition.
      destruct (key_compare_spec k x) as [E | L | L]; auto.
      * right. intuition. subst. exact (key_lt_irrefl _ L).
      * right. intuition. subst. exact (key_lt_irrefl _ L).
Qed.

Lemma first_seen_from_NoDup (keys seen : list K) :
  NoDup (first_seen_from seen keys).
Proof.
  revert seen.
  induction keys as [| k rest IH]; intro seen; simpl.
  - constructor.
  - destruct (existsb _ seen).
    + apply IH.
    + constructor; [| apply IH].
      rewrite first_seen_from_In. simpl. intuition.
Qed.

Lemma first_seen_In (keys : list K) (x : K) :
  In x (first_seen keys) <-> In x keys.
Proof. unfold first_seen. rewrite first_seen_from_In. simpl. intuition. Qed.

Lemma groupby_size_first_seen (keys : list K) :
  Permutation (map fst (groupby_size keys)) (first_seen keys).
Proof.
  apply NoDup_Permutation.
  - apply groupby_size_NoDup.
  - apply first_seen_from_NoDup.
  - intro x. rewrite groupby_size_keys, first_seen_In. reflexivity.
Qed.
End GroupByFacts.

(* ------------------------------------------------------------------ *)
(** ** Group sizes are exact *)

Section GroupSizeFacts.
Context {K : Type} `{KeyOrder K}.

Lemma key_eqb_eq (a b : K) : key_eqb a b = true <-> a = b.
Proof.
  unfold key_eqb. split.
  - destruct (key_compare a b) eqn:C; try discriminate.
    intros _. apply key_compare_eq, C.
  - intros ->. rewrite key_compare_refl. reflexivity.
Qed.

Lemma key_eqb_refl (a : K) : key_eqb a a = true.
Proof. apply key_eqb_eq. reflexivity. Qed.

Lemma key_eqb_neq (a b : K) : a <> b -> key_eqb a b = false.
Proof.
  intro N. destruct (key_eqb a b) eqn:E; trivial.
  apply key_eqb_eq in E. contradiction.
Qed.

Lemma group_total_bump (x k : K) (groups : list (K * nat)) :
  group_total x (bump k groups)
  = ((if key_eqb x k then 1 else 0) + group_total x groups)%nat.
Proof.
  unfold group_total.
  induction groups as [| [k' n] rest IH]; simpl.
  - destruct (key_eqb x k); reflexivity.
  - destruct (key_compare k k') eqn:C; simpl.
    + apply key_compare_eq in C. subst k'.
      destruct (key_eqb x k); simpl; lia.
    + destruct (key_eqb x k), (key_eqb x k'); simpl; lia.
    + destruct (key_eqb x k') eqn:E'; simpl; rewrite IH;
        destruct (key_eqb x k); lia.
Qed.

Lemma group_total_fold (x : K) (keys : list K) (groups : list (K * nat)) :
  group_total x (fold_left (fun g k => bump k g) keys groups)
  = (group_size x keys + group_total x groups)%nat.
Proof.
  revert groups.
  induction keys as [| k rest IH]; intro groups; simpl.
  - reflexivity.
  - rewrite IH, group_total_bump. unfold group_size. simpl.
    destruct (key_eqb x k); simpl; lia.
Qed.

Lemma group_total_absent (x : K) (groups : list (K * nat)) :
  ~ In x (map fst groups) -> group_total x groups = 0%nat.
Proof.
  unfold group_total.
  induction groups as [| [k n] rest IH]; simpl; intro N; trivial.
  rewrite key_eqb_neq by intuition. apply IH. intuition.
Qed.

Lemma group_total_unique (x : K) (n : nat) (groups : list (K * nat)) :
  NoDup (map fst groups) -> In (x, n) groups -> group_total x groups = n.
Proof.
  induction groups as [| [k m] rest IH]; simpl; intros ND I; [destruct I |].
  inversion ND as [| ? ? NI ND']; subst.
  destruct I as [E | I].
  - injection E as -> ->.
    unfold group_total. simpl. rewrite key_eqb_refl. simpl.
    fold (group_total x rest). rewrite group_total_absent; trivial. lia.
  - assert (x <> k).
    { intros ->. apply NI. change k with (fst (k, n)). apply in_map, I. }
    unfold group_total. simpl. rewrite key_eqb_neq by assumption.
    apply IH; assumption.
Qed.

(** A row [(k, n)] of the grouped frame says how many rows have key [k],
    and only keys that occur have a row. *)
Lemma groupby_size_count (keys : list K) (x : K) (n : nat) :
  In (x, n) (groupby_size keys) <-> n = group_size x keys /\ (1 <= n)%nat.
Proof.
  assert (T : forall m, In (x, m) (groupby_size keys) -> m = group_size x keys).
  { intros m I.
    rewrite <- (group_total_unique x m _ (groupby_size_NoDup keys) I).
    unfold groupby_size. rewrite group_total_fold.
    unfold group_total. simpl. lia. }
  split.
  - intro I. split; [apply T, I |].
    pose proof (groupby_size_positive keys) as P.
    rewrite Forall_forall in P. apply P.
    change n with (snd (x, n)). apply in_map, I.
  - intros [E P].
    assert (I : In x keys).
    { unfold group_size in E.
      destruct (filter (key_eqb x) keys) as [| y l] eqn:F.
      - simpl in E. lia.
      - assert (Iy : In y (filter (key_eqb x) keys)) by (rewrite F; left; trivial).
        apply filter_In in Iy. destruct Iy as [Iy Ey].
        apply key_eqb_eq in Ey. subst y. exact Iy. }
    apply groupby_size_keys in I.
    apply in_map_iff in I. destruct I as [[k m] [Ek I]].
    simpl in Ek. subst k.
    rewrite E, <- (T m I). exact I.
Qed.

Lemma groupby_size_rows (keys : list K) :
  groupby_size keys
  = map (fun k => (k, group_size k keys)) (map fst (groupby_size keys)).
Proof.
  rewrite map_map.
  rewrite <- (map_id (groupby_size keys)) at 1.
  apply map_ext_in. intros [k n] I. simpl.
  apply groupby_size_count in I. destruct I as [-> _]. reflexivity.
Qed.
End GroupSizeFacts.

Lemma groupby_size_key_size {K : Type} `{KeyOrder K} (keys : list K) (k : K) :
  In k (map fst (groupby_size keys)) <-> (1 <= group_size k keys)%nat.
Proof.
  split.
  - intro I. apply in_map_iff in I. destruct I as [[k' n] [E I]].
    simpl in E. subst k'. apply groupby_size_count in I. lia.
  - intro P. change k with (fst (k, group_size k keys)).
    apply in_map, groupby_size_count. split; trivial.
Qed.

Lemma group_size_map_filter {K : Type} `{KeyOrder K} (f : LaunchRecord -> K)
    (p : LaunchRecord -> bool) (k : K) (df : DataFrame) :
  group_size k (map f (getitem_mask df p))
  = List.length (filter (fun r => p r && key_eqb k (f r)) df).
Proof.
  unfold group_size, getitem_mask.
  induction df as [| r df IH]; simpl; trivial.
  destruct (p r); simpl; trivial.
  destruct (key_eqb k (f r)); simpl; rewrite IH; reflexivity.
Qed.

Lemma site_group_size (df : DataFrame) (p : LaunchRecord -> bool) (s : string) :
  group_size s (map Launch_Site (getitem_mask df p))
  = List.length (filter (fun r => p r && (Launch_Site r =? s)%string) df).
Proof.
  rewrite group_size_map_filter. f_equal.
  apply filter_ext. intro r. f_equal.
  apply eq_true_iff_eq. rewrite key_eqb_eq, String.eqb_eq. intuition.
Qed.

Lemma class_group_size (df : DataFrame) (p : LaunchRecord -> bool) (c : Z) :
  group_size c (map class (getitem_mask df p))
  = List.length (filter (fun r => p r && (class r =? c)) df).
Proof.
  rewrite group_size_map_filter. f_equal.
  apply filter_ext. intro r. f_equal.
  apply eq_true_iff_eq. rewrite key_eqb_eq, Z.eqb_eq. intuition.
Qed.

Lemma combine_names_values {A B : Type} (f : A -> B) (rows : list (A * nat)) :
  combine (map (fun row => f (fst row)) rows) (map snd rows)
  = map (fun row => (f (fst row), snd row)) rows.
Proof.
  induction rows as [| [k n] rows IH]; simpl; trivial.
  rewrite IH. reflexivity.
Qed.

Lemma success_counts_row (spacex_df : DataFrame) (s : string) (n : nat) :
  In (s, n) (success_counts spacex_df)
  <-> (1 <= n)%nat
      /\ n = List.length
               (filter (fun r => (class r =? 1) && (Launch_Site r =? s)%string)
                  spacex_df).
Proof.
  unfold success_counts. rewrite groupby_size_count, site_group_size. tauto.
Qed.

Lemma class_counts_row (spacex_df : DataFrame) (s : string) (c : Z) (n : nat) :
  In (c, n) (class_counts spacex_df s)
  <-> (1 <= n)%nat
      /\ n = List.length
               (filter (fun r => (Launch_Site r =? s)%string && (class r =? c))
                  spacex_df).
Proof.
  unfold class_counts. rewrite groupby_size_count, class_group_size. tauto.
Qed.

(** The grouped frame has one row per class of the site, holding the number
    of records of the site with that class. *)
Lemma class_counts_rows (spacex_df : DataFrame) (s : string) :
  class_counts spacex_df s
  = map (fun c =>
           (c, List.length
                 (filter (fun r => (Launch_Site r =? s)%string && (class r =? c))
                    spacex_df)))
      (map fst (class_counts spacex_df s)).
Proof.
  unfold class_counts.
  rewrite (groupby_size_rows
             (map class
                (getitem_mask spacex_df (fun r => (Launch_Site r =? s)%string)))) at 1.
  apply map_ext. intro c. rewrite class_group_size. reflexivity.
Qed.

(** A label that one class only maps to names the slice of that class. *)
Lemma outcome_slice_row (groups : list (Z * nat)) (c : Z) (label : string) (n : nat) :
  outcome_of_class c = Some label ->
  (forall c', outcome_of_class c' = Some label -> c' = c) ->
  In (Some label, n)
    (combine (map (fun row => outcome_of_class (fst row)) groups) (map snd groups))
  <-> In (c, n) groups.
Proof.
  intros E U. rewrite combine_names_values, in_map_iff. split.
  - intros [[c' m] [Ec I]]. simpl in Ec. injection Ec as Ec ->.
    rewrite <- (U c' Ec). exact I.
  - intro I. exists (c, n). simpl. rewrite E. split; trivial.
Qed.

Lemma outcome_success (c : Z) : outcome_of_class c = Some "Success" -> c = 1.
Proof.
  unfold outcome_of_class.
  destruct (c =? 1) eqn:C1; [intros _; apply Z.eqb_eq, C1 |].
  destruct (c =? 0); discriminate.
Qed.

Lemma outcome_failure (c : Z) : outcome_of_class c = Some "Failure" -> c = 0.
Proof.
  unfold outcome_of_class.
  destruct (c =? 1) eqn:C1; [discriminate |].
  destruct (c =? 0) eqn:C0; [intros _; apply Z.eqb_eq, C0 | discriminate].
Qed.

Lemma map_Some_NoDup {A : Type} (l : list A) : NoDup l -> NoDup (map Some l).
Proof.
  intro ND. induction ND as [| k keys NI ND IH]; simpl; constructor; trivial.
  intro I. apply in_map_iff in I. destruct I as [k' [E I]].
  injection E as ->. contradiction.
Qed.

(* ------------------------------------------------------------------ *)
(** ** Boolean indexing *)

Lemma getitem_mask_In (df : DataFrame) (mask : LaunchRecord -> bool) (r : LaunchRecord) :
  In r (getitem_mask df mask) <-> In r df /\ mask r = true.
Proof. unfold getitem_mask. apply filter_In. Qed.

Lemma getitem_mask_twice (df : DataFrame) (p q : LaunchRecord -> bool) :
  getitem_mask (getitem_mask df p) q = getitem_mask df (fun r => p r && q r).
Proof.
  unfold getitem_mask.
  induction df as [| r df IH]; simpl; trivial.
  destruct (p r); simpl; [destruct (q r) |]; rewrite IH; reflexivity.
Qed.

Lemma getitem_mask_ext (df : DataFrame) (p q : LaunchRecord -> bool) :
  (forall r, In r df -> p r = q r) -> getitem_mask df p = getitem_mask df q.
Proof.
  unfold getitem_mask. intro E.
  induction df as [| r df IH]; simpl; trivial.
  rewrite (E r (or_introl eq_refl)), IH; trivial.
  intros r' I. apply E. right. exact I.
Qed.

Lemma getitem_mask_none (df : DataFrame) (p : LaunchRecord -> bool) :
  (forall r, In r df -> p r = false) -> getitem_mask df p = [].
Proof.
  unfold getitem_mask. intro E.
  induction df as [| r df IH]; simpl; trivial.
  rewrite (E r (or_introl eq_refl)). apply IH.
  intros r' I. apply E. right. exact I.
Qed.

Lemma getitem_mask_all (df : DataFrame) (p : LaunchRecord -> bool) :
  (forall r, In r df -> p r = true) -> getitem_mask df p = df.
Proof.
  unfold getitem_mask. intro E.
  induction df as [| r df IH]; simpl; trivial.
  rewrite (E r (or_introl eq_refl)). f_equal. apply IH.
  intros r' I. apply E. right. exact I.
Qed.

(* ------------------------------------------------------------------ *)
(** ** The scatter callback *)

(** The frame the scatter is drawn from, in one filter: the callback
    returns normally on every pair [low, high]. *)
Lemma update_scatter_data (spacex_df : DataFrame) (entered_site : string) (low high : Q) :
  exists fig,
    update_scatter spacex_df entered_site [low; high] = Ok fig /\
    scatter_data fig =
      getitem_mask spacex_df
        (fun r => (Qle_bool low (Payload_Mass_kg r) && Qle_bool (Payload_Mass_kg r) high)
                  && ((entered_site =? ALL)%string || (Launch_Site r =? entered_site)%string)).
Proof.
  unfold update_scatter. simpl.
  eexists. split; [reflexivity |]. simpl.
  destruct (entered_site =? ALL)%string; simpl.
  - apply getitem_mask_ext. intros r _. rewrite andb_true_r. reflexivity.
  - apply getitem_mask_twice.
Qed.

Lemma site_test (entered_site : string) (r : LaunchRecord) :
  ((entered_site =? ALL)%string || (Launch_Site r =? entered_site)%string) = true
  <-> entered_site = ALL \/ Launch_Site r = entered_site.
Proof. rewrite orb_true_iff, !String.eqb_eq. reflexivity. Qed.

Lemma range_test (low high p : Q) :
  Qle_bool low p && Qle_bool p high = true <-> (low <= p /\ p <= high)%Q.
Proof. rewrite andb_true_iff, !Qle_bool_iff. reflexivity. Qed.

(** C1. Every record the scatter filter returns has its payload in
    [low, high], both ends included, and is of the selected site unless the
    selection is ['ALL']; when [low == high] the records returned are exactly
    the records of the table (of that site) whose payload equals that
    value. *)
Theorem update_scatter_within_selection
    (spacex_df : DataFrame) (entered_site : string) (low high : Q) :
  exists fig,
    update_scatter spacex_df entered_site [low; high] = Ok fig /\
    (forall r, In r (scatter_data fig) ->
       (low <= Payload_Mass_kg r)%Q /\ (Payload_Mass_kg r <= high)%Q /\
       (entered_site = ALL \/ Launch_Site r = entered_site)) /\
    ((low == high)%Q ->
       scatter_data fig =
         getitem_mask spacex_df
           (fun r => Qeq_bool (Payload_Mass_kg r) low
                     && ((entered_site =? ALL)%string
                         || (Launch_Site r =? entered_site)%string))).
Proof.
  destruct (update_scatter_data spacex_df entered_site low high) as [fig [E D]].
  exists fig. split; [exact E |]. rewrite D. split.
  - intros r I. apply getitem_mask_In in I. destruct I as [_ T].
    apply andb_true_iff in T. destruct T as [R S].
    apply range_test in R. apply site_test in S. tauto.
  - intro LH. apply getitem_mask_ext. intros r _. f_equal.
    destruct (Qeq_bool (Payload_Mass_kg r) low) eqn:Q.
    + apply Qeq_bool_iff in Q. apply range_test.
      rewrite Q, <- LH. split; apply Qle_refl.
    + destruct (Qle_bool low (Payload_Mass_kg r) && Qle_bool (Payload_Mass_kg r) high) eqn:R;
        trivial.
      apply range_test in R. destruct R as [R1 R2].
      rewrite <- LH in R2.
      assert (Q' : (Payload_Mass_kg r == low)%Q) by (apply Qle_antisym; assumption).
      apply Qeq_bool_iff in Q'. congruence.
Qed.

(** On the example table, the range [500, 500] selects the two 500 kg
    launches. *)
Lemma update_scatter_within_selection_witness :
  exists fig,
    update_scatter three_launches ALL [500 # 1; 500 # 1] = Ok fig /\
    scatter_data fig
    = [launch "CCAFS LC-40" (500 # 1) 1 "v1.0"; launch "KSC LC-39A" (500 # 1) 1 "v1.1"].
Proof.
  destruct (update_scatter_within_selection three_launches ALL (500 # 1) (500 # 1))
    as [fig [E [_ X]]].
  exists fig. split; [exact E |].
  rewrite X by reflexivity. reflexivity.
Defined.

(** No payload lies in an inverted range. *)
Lemma range_test_inverted (low high p : Q) :
  (high < low)%Q -> Qle_bool low p && Qle_bool p high = false.
Proof.
  intro HL.
  destruct (Qle_bool low p && Qle_bool p high) eqn:R; trivial.
  apply range_test in R. destruct R as [R1 R2].
  exfalso. apply (Qlt_irrefl low).
  apply Qle_lt_trans with high; [apply Qle_trans with p |]; assumption.
Qed.

(** C10. With [low > high] the scatter callback raises nothing and draws
    from the empty frame. *)
Theorem update_scatter_inverted_range_empty
    (spacex_df : DataFrame) (entered_site : string) (low high : Q) :
  (high < low)%Q ->
  exists fig,
    update_scatter spacex_df entered_site [low; high] = Ok fig /\
    scatter_data fig = [].
Proof.
  intro HL.
  destruct (update_scatter_data spacex_df entered_site low high) as [fig [E D]].
  exists fig. split; [exact E |]. rewrite D.
  apply getitem_mask_none. intros r _.
  rewrite (range_test_inverted _ _ _ HL). reflexivity.
Qed.

(** On the example table, the range [600, 400] selects nothing. *)
Lemma update_scatter_inverted_range_empty_witness :
  exists fig,
    update_scatter three_launches "KSC LC-39A" [600 # 1; 400 # 1] = Ok fig /\
    scatter_data fig = [].
Proof.
  apply (update_scatter_inverted_range_empty three_launches "KSC LC-39A"
           (600 # 1) (400 # 1)).
  reflexivity.
Defined.

(* ------------------------------------------------------------------ *)
(** ** The pie callback *)

Lemma update_pie_all_values (spacex_df : DataFrame) :
  pie_values (update_pie spacex_df ALL) = map snd (success_counts spacex_df).
Proof. reflexivity. Qed.

Lemma update_pie_all_names (spacex_df : DataFrame) :
  pie_names (update_pie spacex_df ALL)
  = map Some (map fst (success_counts spacex_df)).
Proof. simpl. rewrite map_map. reflexivity. Qed.

Lemma update_pie_site_values (spacex_df : DataFrame) (entered_site : string) :
  entered_site <> ALL ->
  pie_values (update_pie spacex_df entered_site)
  = map snd (class_counts spacex_df entered_site).
Proof.
  intro N. unfold update_pie.
  apply String.eqb_neq in N. rewrite N. reflexivity.
Qed.

Lemma update_pie_site_names (spacex_df : DataFrame) (entered_site : string) :
  entered_site <> ALL ->
  pie_names (update_pie spacex_df entered_site)
  = map outcome_of_class (map fst (class_counts spacex_df entered_site)).
Proof.
  intro N. unfold update_pie.
  apply String.eqb_neq in N. rewrite N. simpl. rewrite map_map. reflexivity.
Qed.

(** C2. The all-sites pie has one slice per site with a successful
    launch, named after the site and holding the number of records of that
    site with [class == 1]; its counts therefore add up to the number of
    records with [class == 1].  The records of any other class contribute
    nothing: the pie of the table is the pie of its successes. *)
Theorem update_pie_all_counts_successes (spacex_df : DataFrame) :
  list_sum (pie_values (update_pie spacex_df ALL))
  = List.length (filter (fun r => class r =? 1) spacex_df)
  /\ update_pie spacex_df ALL
     = update_pie (filter (fun r => class r =? 1) spacex_df) ALL
  /\ NoDup (pie_names (update_pie spacex_df ALL))
  /\ ~ In None (pie_names (update_pie spacex_df ALL))
  /\ List.length (pie_names (update_pie spacex_df ALL))
     = List.length (pie_values (update_pie spacex_df ALL))
  /\ forall (s : string) (n : nat),
       In (Some s, n)
         (combine (pie_names (update_pie spacex_df ALL))
            (pie_values (update_pie spacex_df ALL)))
       <-> (1 <= n)%nat
           /\ n = List.length
                    (filter
                       (fun r => (class r =? 1) && (Launch_Site r =? s)%string)
                       spacex_df).
Proof.
  split; [| split; [| split; [| split; [| split]]]].
  - rewrite update_pie_all_values. unfold success_counts.
    rewrite groupby_size_sum, length_map. reflexivity.
  - unfold update_pie. simpl. unfold success_counts.
    fold (getitem_mask spacex_df (fun r => class r =? 1)).
    rewrite getitem_mask_twice.
    rewrite (getitem_mask_ext spacex_df (fun r => (class r =? 1) && (class r =? 1))
               (fun r => class r =? 1)); trivial.
    intros r _. apply andb_diag.
  - rewrite update_pie_all_names. apply map_Some_NoDup.
    unfold success_counts. apply groupby_size_NoDup.
  - rewrite update_pie_all_names. intro I.
    apply in_map_iff in I. destruct I as [k [E _]]. discriminate E.
  - rewrite update_pie_all_names, update_pie_all_values, !length_map. reflexivity.
  - intros s n. simpl. rewrite combine_names_values.
    rewrite <- success_counts_row, in_map_iff. split.
    + intros [[s' m] [E I]]. simpl in E. injection E as -> ->. exact I.
    + intro I. exists (s, n). split; trivial.
Qed.

(** C3. For a site that occurs in the table, the single-site pie has one
    slice per class that occurs among the records of the site, named by the
    outcome of the class and holding the number of records of the site with
    that class: the slice "Success" counts the records of the site with
    [class == 1], the slice "Failure" those with [class == 0].  Its counts
    therefore add up to the number of records of the site. *)
Theorem update_pie_site_counts_records (spacex_df : DataFrame) (s : string) :
  In s (map Launch_Site spacex_df) ->
  s <> ALL ->
  list_sum (pie_values (update_pie spacex_df s))
  = List.length (filter (fun r => (Launch_Site r =? s)%string) spacex_df)
  /\ (exists classes : list Z,
        NoDup classes
        /\ (forall c, In c classes
                      <-> exists r, In r spacex_df /\ Launch_Site r = s /\ class r = c)
        /\ pie_names (update_pie spacex_df s) = map outcome_of_class classes
        /\ pie_values (update_pie spacex_df s)
           = map (fun c =>
                    List.length
                      (filter
                         (fun r => (Launch_Site r =? s)%string && (class r =? c))
                         spacex_df))
               classes)
  /\ (forall n : nat,
        In (Some "Success", n)
          (combine (pie_names (update_pie spacex_df s))
             (pie_values (update_pie spacex_df s)))
        <-> (1 <= n)%nat
            /\ n = List.length
                     (filter
                        (fun r => (Launch_Site r =? s)%string && (class r =? 1))
                        spacex_df))
  /\ (forall n : nat,
        In (Some "Failure", n)
          (combine (pie_names (update_pie spacex_df s))
             (pie_values (update_pie spacex_df s)))
        <-> (1 <= n)%nat
            /\ n = List.length
                     (filter
                        (fun r => (Launch_Site r =? s)%string && (class r =? 0))
                        spacex_df)).
Proof.
  intros _ N.
  rewrite (update_pie_site_names _ _ N), (update_pie_site_values _ _ N).
  split; [| split; [| split]].
  - unfold class_counts. rewrite groupby_size_sum, length_map. reflexivity.
  - exists (map fst (class_counts spacex_df s)).
    split; [unfold class_counts; apply groupby_size_NoDup |].
    split; [| split].
    + intro c. unfold class_counts. rewrite groupby_size_keys, in_map_iff.
      split.
      * intros [r [E I]]. apply getitem_mask_In in I. destruct I as [I S].
        apply String.eqb_eq in S. exists r. tauto.
      * intros [r [I [S E]]]. exists r. split; trivial.
        apply getitem_mask_In. split; trivial. apply String.eqb_eq, S.
    + reflexivity.
    + rewrite (class_counts_rows spacex_df s) at 1.
      rewrite map_map. reflexivity.
  - intro n. rewrite map_map.
    rewrite (outcome_slice_row _ 1 "Success" n eq_refl outcome_success).
    apply class_counts_row.
  - intro n. rewrite map_map.
    rewrite (outcome_slice_row _ 0 "Failure" n eq_refl outcome_failure).
    apply class_counts_row.
Qed.

(** The example table has two records of its first site, one of them a
    success. *)
Lemma update_pie_site_counts_records_witness :
  list_sum (pie_values (update_pie three_launches "CCAFS LC-40")) = 2%nat
  /\ In (Some "Success", 1%nat)
       (combine (pie_names (update_pie three_launches "CCAFS LC-40"))
          (pie_values (update_pie three_launches "CCAFS LC-40"))).
Proof.
  destruct (update_pie_site_counts_records three_launches "CCAFS LC-40"
              (or_introl eq_refl) ltac:(discriminate))
    as [T [_ [S _]]].
  split; [exact T |].
  apply S. split; [apply le_n | reflexivity].
Defined.

(** C4. A site without a successful record is no slice of the all-sites
    pie: its name is absent, and no slice at all has the count zero. *)
Theorem update_pie_all_omits_sites_without_success (spacex_df : DataFrame) (s : string) :
  (forall r, In r spacex_df -> Launch_Site r = s -> class r <> 1) ->
  ~ In (Some s) (pie_names (update_pie spacex_df ALL))
  /\ Forall (fun n => 1 <= n)%nat (pie_values (update_pie spacex_df ALL)).
Proof.
  intro NS. split.
  - rewrite update_pie_all_names. intro I.
    apply in_map_iff in I. destruct I as [s' [E I]].
    injection E as ->.
    unfold success_counts in I. rewrite groupby_size_keys in I.
    apply in_map_iff in I. destruct I as [r [E I]].
    apply getitem_mask_In in I. destruct I as [I C].
    apply Z.eqb_eq in C. exact (NS r I E C).
  - rewrite update_pie_all_values. apply groupby_size_positive.
Qed.

(** A site whose only launch failed is no slice. *)
Lemma update_pie_all_omits_sites_without_success_witness :
  ~ In (Some "CCAFS LC-40") (pie_names (update_pie fractional_maximum ALL))
  /\ Forall (fun n => 1 <= n)%nat (pie_values (update_pie fractional_maximum ALL)).
Proof.
  apply (update_pie_all_omits_sites_without_success fractional_maximum "CCAFS LC-40").
  intros r [<- | [<- | []]] S.
  - discriminate.
  - discriminate S.
Defined.

(** C6 (as stated, refuted). The groups of the pie are not in first-seen
    order: with the last-sorting site flown first, the all-sites pie names
    the other site first; and for a site whose first record is a success, the
    single-site pie names the failures first. *)
Lemma update_pie_groups_not_first_seen :
  pie_names (update_pie ksc_first ALL)
  <> map Some
       (first_seen (map Launch_Site (getitem_mask ksc_first (fun r => class r =? 1))))
  /\ pie_names (update_pie three_launches "CCAFS LC-40")
     <> map outcome_of_class
          (first_seen
             (map class
                (getitem_mask three_launches
                   (fun r => (Launch_Site r =? "CCAFS LC-40")%string)))).
Proof. split; vm_compute; discriminate. Qed.

(** C6 (amended). The groups of the pie appear in ascending order of the
    grouping key, each key of the filtered table once: the site names in
    code-point order for ['ALL'], the classes in numeric order (failure before
    success) for a single site.  The order is neither the first-seen order
    nor an order by count. *)
Theorem update_pie_groups_ascending (spacex_df : DataFrame) :
  (exists keys : list string,
     pie_names (update_pie spacex_df ALL) = map Some keys /\
     Sorted String_as_OT.lt keys /\
     Permutation keys
       (first_seen (map Launch_Site (getitem_mask spacex_df (fun r => class r =? 1)))))
  /\
  (forall entered_site : string,
     entered_site <> ALL ->
     exists keys : list Z,
       pie_names (update_pie spacex_df entered_site) = map outcome_of_class keys /\
       Sorted Z.lt keys /\
       Permutation keys
         (first_seen
            (map class
               (getitem_mask spacex_df
                  (fun r => (Launch_Site r =? entered_site)%string))))).
Proof.
  split.
  - exists (map fst (success_counts spacex_df)).
    split; [apply update_pie_all_names |].
    unfold success_counts. split.
    + exact (@groupby_size_sorted string string_KeyOrder _).
    + apply groupby_size_first_seen.
  - intros entered_site N.
    exists (map fst (class_counts spacex_df entered_site)).
    split; [apply update_pie_site_names, N |].
    unfold class_counts. split.
    + exact (@groupby_size_sorted Z Z_KeyOrder _).
    + apply groupby_size_first_seen.
Qed.

(** The single-site pie of the example table lists its classes in ascending
    order. *)
Lemma update_pie_groups_ascending_witness :
  exists keys : list Z,
    pie_names (update_pie three_launches "CCAFS LC-40") = map outcome_of_class keys /\
    Sorted Z.lt keys /\
    Permutation keys
      (first_seen
         (map class
            (getitem_mask three_launches
               (fun r => (Launch_Site r =? "CCAFS LC-40")%string)))).
Proof.
  apply (proj2 (update_pie_groups_ascending three_launches) "CCAFS LC-40").
  discriminate.
Defined.

(* ------------------------------------------------------------------ *)
(** ** The payload bounds *)

Lemma fold_max_spec (rest : list Q) (x : Q) :
  let m := fold_left (fun m y => if Qle_bool m y then y else m) rest x in
  (m = x \/ In m rest) /\ (x <= m)%Q /\ (forall y, In y rest -> (y <= m)%Q).
Proof.
  revert x.
  induction rest as [| y rest IH]; intro x; simpl.
  - split; [left; reflexivity |]. split; [apply Qle_refl | intros y []].
  - destruct (Qle_bool x y) eqn:C.
    + apply Qle_bool_iff in C.
      destruct (IH y) as [I [L A]].
      split; [destruct I as [-> | I]; auto |].
      split; [apply Qle_trans with y; assumption |].
      intros z [<- | Iz]; auto.
    + assert (L' : (y <= x)%Q).
      { apply Qlt_le_weak, Qnot_le_lt. intro L.
        apply Qle_bool_iff in L. congruence. }
      destruct (IH x) as [I [L A]].
      split; [destruct I as [-> | I]; auto |].
      split; [exact L |].
      intros z [<- | Iz]; auto.
      apply Qle_trans with x; assumption.
Qed.

Lemma fold_min_spec (rest : list Q) (x : Q) :
  let m := fold_left (fun m y => if Qle_bool y m then y else m) rest x in
  (m = x \/ In m rest) /\ (m <= x)%Q /\ (forall y, In y rest -> (m <= y)%Q).
Proof.
  revert x.
  induction rest as [| y rest IH]; intro x; simpl.
  - split; [left; reflexivity |]. split; [apply Qle_refl | intros y []].
  - destruct (Qle_bool y x) eqn:C.
    + apply Qle_bool_iff in C.
      destruct (IH y) as [I [L A]].
      split; [destruct I as [-> | I]; auto |].
      split; [apply Qle_trans with y; assumption |].
      intros z [<- | Iz]; auto.
    + assert (L' : (x <= y)%Q).
      { apply Qlt_le_weak, Qnot_le_lt. intro L.
        apply Qle_bool_iff in L. congruence. }
      destruct (IH x) as [I [L A]].
      split; [destruct I as [-> | I]; auto |].
      split; [exact L |].
      intros z [<- | Iz]; auto.
      apply Qle_trans with x; assumption.
Qed.

Lemma series_max_spec (xs : list Q) :
  xs <> [] ->
  exists m, series_max xs = Some m /\ In m xs /\ forall x, In x xs -> (x <= m)%Q.
Proof.
  destruct xs as [| x rest]; [congruence | intros _].
  destruct (fold_max_spec rest x) as [I [L A]].
  eexists. split; [reflexivity |]. split.
  - destruct I as [-> | I]; [left | right]; trivial.
  - intros y [<- | Iy]; auto.
Qed.

Lemma series_min_spec (xs : list Q) :
  xs <> [] ->
  exists m, series_min xs = Some m /\ In m xs /\ forall x, In x xs -> (m <= x)%Q.
Proof.
  destruct xs as [| x rest]; [congruence | intros _].
  destruct (fold_min_spec rest x) as [I [L A]].
  eexists. split; [reflexivity |]. split.
  - destruct I as [-> | I]; [left | right]; trivial.
  - intros y [<- | Iy]; auto.
Qed.

(** [int] is exact on a whole number. *)
Lemma py_int_whole (q : Q) (z : Z) :
  (q == inject_Z z)%Q -> py_int (Some q) = Ok z.
Proof.
  unfold Qeq. simpl. intro E. f_equal.
  rewrite Z.mul_1_r in E. rewrite E.
  apply Z.quot_mul. discriminate.
Qed.

(** On an empty table the loader stops: the bounds are undefined. *)
Lemma payload_bounds_empty :
  max_payload [] = Raise ValueError /\ min_payload [] = Raise ValueError.
Proof. split; reflexivity. Qed.

(** Where every payload is a whole number of kilograms, the range
    [min_payload, max_payload] keeps the whole table. *)
Lemma whole_payload_bounds_keep_every_record (spacex_df : DataFrame) :
  spacex_df <> [] ->
  (forall r, In r spacex_df -> exists z, (Payload_Mass_kg r == inject_Z z)%Q) ->
  exists lo hi fig,
    min_payload spacex_df = Ok lo /\
    max_payload spacex_df = Ok hi /\
    update_scatter spacex_df ALL [inject_Z lo; inject_Z hi] = Ok fig /\
    scatter_data fig = spacex_df.
Proof.
  intros NE W.
  assert (NE' : map Payload_Mass_kg spacex_df <> []).
  { destruct spacex_df; [congruence | discriminate]. }
  destruct (series_min_spec _ NE') as [lo [Elo [Ilo Alo]]].
  destruct (series_max_spec _ NE') as [hi [Ehi [Ihi Ahi]]].
  apply in_map_iff in Ilo. destruct Ilo as [rlo [<- Ilo]].
  apply in_map_iff in Ihi. destruct Ihi as [rhi [<- Ihi]].
  destruct (W _ Ilo) as [zlo Wlo]. destruct (W _ Ihi) as [zhi Whi].
  destruct (update_scatter_data spacex_df ALL (inject_Z zlo) (inject_Z zhi))
    as [fig [E D]].
  exists zlo, zhi, fig.
  unfold min_payload, max_payload. rewrite Elo, Ehi.
  rewrite (py_int_whole _ _ Wlo), (py_int_whole _ _ Whi).
  repeat split; trivial.
  rewrite D. apply getitem_mask_all. intros r I.
  rewrite String.eqb_refl, andb_true_r.
  apply range_test. rewrite <- Wlo, <- Whi.
  split; [apply Alo | apply Ahi]; apply in_map; exact I.
Qed.

(** C5 (the code at the failing table). With a heaviest payload of
    9600.5 kg the loader computes the bounds 0 and 9600, and the scatter
    filter at [0, 9600], the range the slider starts from, drops the heaviest
    record. *)
Theorem payload_bounds_drop_fractional_maximum :
  min_payload fractional_maximum = Ok 0 /\
  max_payload fractional_maximum = Ok 9600 /\
  (exists st fig,
     initial_state fractional_maximum = Ok st /\
     slider_payload st = [inject_Z 0; inject_Z 9600] /\
     success_payload_scatter_chart st = Ok fig /\
     scatter_data fig = [launch "CCAFS LC-40" (0 # 1) 0 "v1.0"] /\
     scatter_data fig <> fractional_maximum).
Proof.
  split; [reflexivity |]. split; [reflexivity |].
  eexists. eexists.
  split; [reflexivity |]. split; [reflexivity |]. split; [reflexivity |].
  split; [reflexivity |]. discriminate.
Qed.

(* ------------------------------------------------------------------ *)
(** ** The callback wiring *)

Lemma run_pie (spacex_df : DataFrame) (evs : list event) (st : dash_state) :
  success_pie_chart (run spacex_df st evs)
  = fold_left (fun _ value => update_pie spacex_df value)
      (site_selections evs) (success_pie_chart st).
Proof.
  unfold run. revert st.
  induction evs as [| [value | value] evs IH]; intro st; simpl.
  - reflexivity.
  - rewrite IH. reflexivity.
  - rewrite IH. reflexivity.
Qed.

Lemma run_site (spacex_df : DataFrame) (evs : list event) (st : dash_state) :
  site_dropdown (run spacex_df st evs)
  = fold_left (fun _ value => value) (site_selections evs) (site_dropdown st).
Proof.
  unfold run. revert st.
  induction evs as [| [value | value] evs IH]; intro st; simpl.
  - reflexivity.
  - rewrite IH. reflexivity.
  - rewrite IH. reflexivity.
Qed.

(** Along any trace the pie shown is the pie of the site shown. *)
Lemma run_pie_of_site (spacex_df : DataFrame) (evs : list event) (st : dash_state) :
  success_pie_chart st = update_pie spacex_df (site_dropdown st) ->
  success_pie_chart (run spacex_df st evs)
  = update_pie spacex_df (site_dropdown (run spacex_df st evs)).
Proof.
  rewrite run_pie, run_site.
  generalize (site_dropdown st), (success_pie_chart st).
  induction (site_selections evs) as [| value sel IH]; intros site pie E; simpl.
  - exact E.
  - apply IH. reflexivity.
Qed.

(** C8. The payload range does not flow into the pie: two runs of the
    dashboard that start from the same pie and go through the same site
    selections show the same pie, whatever payload ranges were selected in
    between and whatever the slider held at the start. *)
Theorem pie_independent_of_payload_range
    (spacex_df : DataFrame) (st1 st2 : dash_state) (evs1 evs2 : list event) :
  success_pie_chart st1 = success_pie_chart st2 ->
  site_selections evs1 = site_selections evs2 ->
  success_pie_chart (run spacex_df st1 evs1)
  = success_pie_chart (run spacex_df st2 evs2).
Proof.
  intros P S. rewrite !run_pie, P, S. reflexivity.
Qed.

(** Two runs on the example table that select the same site and different
    payload ranges. *)
Lemma pie_independent_of_payload_range_witness :
  success_pie_chart
    (run three_launches three_launches_page
       [PayloadSelected [0 # 1; 600 # 1]; SiteSelected "KSC LC-39A"])
  = success_pie_chart
      (run three_launches three_launches_page
         [SiteSelected "KSC LC-39A"; PayloadSelected [900 # 1; 9600 # 1]]).
Proof.
  apply (pie_independent_of_payload_range three_launches
           three_launches_page three_launches_page
           [PayloadSelected [0 # 1; 600 # 1]; SiteSelected "KSC LC-39A"]
           [SiteSelected "KSC LC-39A"; PayloadSelected [900 # 1; 9600 # 1]]);
    reflexivity.
Defined.

(** C7 (as stated, refuted). On the example table the page opens with all
    three records in the scatter; selecting the pair [600, 400] is an invalid
    selection, yet the callback returns a figure, an empty one, and it
    replaces the previous one. *)
Lemma invalid_range_replaces_scatter :
  exists st : dash_state,
    initial_state three_launches = Ok st /\
    invalid_selection (site_dropdown st) [600 # 1; 400 # 1] /\
    success_payload_scatter_chart
      (dispatch three_launches st (PayloadSelected [600 # 1; 400 # 1]))
    <> success_payload_scatter_chart st /\
    exists fig,
      success_payload_scatter_chart
        (dispatch three_launches st (PayloadSelected [600 # 1; 400 # 1]))
      = Ok fig.
Proof.
  eexists. split; [reflexivity |]. split.
  - left. exists (600 # 1), (400 # 1). split; reflexivity.
  - split.
    + vm_compute. discriminate.
    + eexists. reflexivity.
Qed.

(** C7 (amended). No selection is rejected or clamped: whatever site value
    and payload pair are selected, both callbacks return normally and their
    figures replace the ones shown.  With [low > high] the scatter is drawn
    from the empty frame; with a site other than ['ALL'] that no record has,
    the pie has no slice and the scatter no record. *)
Theorem selections_are_not_validated
    (spacex_df : DataFrame) (st : dash_state) (site : string) (low high : Q) :
  let st' := run spacex_df st [SiteSelected site; PayloadSelected [low; high]] in
  success_pie_chart st' = update_pie spacex_df site /\
  exists fig,
    success_payload_scatter_chart st' = Ok fig /\
    success_payload_scatter_chart st' = update_scatter spacex_df site [low; high] /\
    ((high < low)%Q -> scatter_data fig = []) /\
    (site <> ALL -> ~ In site (map Launch_Site spacex_df) ->
       scatter_data fig = [] /\
       pie_names (update_pie spacex_df site) = [] /\
       pie_values (update_pie spacex_df site) = []).
Proof.
  simpl. split; [reflexivity |].
  destruct (update_scatter_data spacex_df site low high) as [fig [E D]].
  exists fig. split; [exact E |]. split; [reflexivity |]. split.
  - intro HL. rewrite D.
    apply getitem_mask_none. intros r _.
    rewrite (range_test_inverted _ _ _ HL). reflexivity.
  - intros N U.
    assert (Z : getitem_mask spacex_df (fun r => (Launch_Site r =? site)%string) = []).
    { apply getitem_mask_none. intros r I. apply String.eqb_neq.
      intro S. apply U. rewrite <- S. apply in_map, I. }
    split.
    + rewrite D. apply getitem_mask_none. intros r I.
      apply String.eqb_neq in N. rewrite N. simpl.
      apply andb_false_iff. right. apply String.eqb_neq.
      intro S. apply U. rewrite <- S. apply in_map, I.
    + rewrite (update_pie_site_names _ _ N), (update_pie_site_values _ _ N).
      unfold class_counts. rewrite Z. split; reflexivity.
Qed.

(** On the example table, a site without records and an inverted range are
    drawn as an empty pie and an empty scatter. *)
Lemma selections_are_not_validated_witness :
  success_pie_chart
    (run three_launches three_launches_page
       [SiteSelected "VAFB SLC-4E"; PayloadSelected [600 # 1; 400 # 1]])
  = update_pie three_launches "VAFB SLC-4E"
  /\ pie_values (update_pie three_launches "VAFB SLC-4E") = []
  /\ exists fig,
       success_payload_scatter_chart
         (run three_launches three_launches_page
            [SiteSelected "VAFB SLC-4E"; PayloadSelected [600 # 1; 400 # 1]])
       = Ok fig
       /\ scatter_data fig = [].
Proof.
  destruct (selections_are_not_validated three_launches three_launches_page
              "VAFB SLC-4E" (600 # 1) (400 # 1)) as [P [fig [E [_ [R S]]]]].
  split; [exact P |]. split; [reflexivity |].
  exists fig. split; [exact E |]. apply R. reflexivity.
Defined.

(* ------------------------------------------------------------------ *)
(** ** The callbacks over the store *)

Lemma nth_error_snoc (h : Store.heap) (o : Store.object) :
  nth_error (h ++ [o])%list (List.length h) = Some o.
Proof.
  rewrite nth_error_app2 by lia. rewrite Nat.sub_diag. reflexivity.
Qed.

Lemma nth_error_grow (h t : Store.heap) (r : Store.ref) (o : Store.object) :
  nth_error h r = Some o -> nth_error (h ++ t)%list r = Some o.
Proof.
  intro E. rewrite nth_error_app1; trivial.
  apply nth_error_Some. congruence.
Qed.

Lemma set_nth_snoc (h : Store.heap) (o o' : Store.object) :
  Store.set_nth (h ++ [o])%list (List.length h) o' = (h ++ [o'])%list.
Proof.
  induction h as [| x h IH]; simpl; trivial.
  rewrite IH. reflexivity.
Qed.

Lemma bindM_ok {A B : Type} (m : Store.M A) (k : A -> Store.M B)
    (h h' : Store.heap) (a : A) :
  m h = (Ok a, h') -> Store.bindM m k h = k a h'.
Proof. unfold Store.bindM. intros ->. reflexivity. Qed.

Lemma read_run (r : Store.ref) (o : Store.object) (h : Store.heap) :
  nth_error h r = Some o -> Store.read r h = (Ok o, h).
Proof. unfold Store.read. intros ->. reflexivity. Qed.

(** Boolean indexing reads its frame and allocates the result. *)
Lemma store_getitem_mask_run (df : Store.ref) (rows : DataFrame)
    (mask : LaunchRecord -> bool) (h : Store.heap) :
  nth_error h df = Some (Store.FrameObj rows) ->
  Store.getitem_mask df mask h
  = (Ok (List.length h), (h ++ [Store.FrameObj (getitem_mask rows mask)])%list).
Proof.
  intro E. unfold Store.getitem_mask.
  rewrite (bindM_ok _ _ _ _ _ (read_run _ _ _ E)). reflexivity.
Qed.

Lemma store_groupby_site_size_run (df : Store.ref) (rows : DataFrame) (h : Store.heap) :
  nth_error h df = Some (Store.FrameObj rows) ->
  Store.groupby_site_size df h
  = (Ok (List.length h),
     (h ++ [Store.SiteCountsObj (groupby_size (map Launch_Site rows))])%list).
Proof.
  intro E. unfold Store.groupby_site_size.
  rewrite (bindM_ok _ _ _ _ _ (read_run _ _ _ E)). reflexivity.
Qed.

Lemma store_groupby_class_size_run (df : Store.ref) (rows : DataFrame) (h : Store.heap) :
  nth_error h df = Some (Store.FrameObj rows) ->
  Store.groupby_class_size df h
  = (Ok (List.length h),
     (h ++ [Store.ClassCountsObj (groupby_size (map class rows)) None])%list).
Proof.
  intro E. unfold Store.groupby_class_size.
  rewrite (bindM_ok _ _ _ _ _ (read_run _ _ _ E)). reflexivity.
Qed.

(** The column assignment of the pie callback writes the object it has just
    allocated, the last of the store. *)
Lemma store_setitem_outcome_run (h : Store.heap) (rows : list (Z * nat))
    (outcome : option (list (option string))) :
  Store.setitem_outcome (List.length h) (h ++ [Store.ClassCountsObj rows outcome])%list
  = (Ok tt,
     (h ++ [Store.ClassCountsObj rows
              (Some (map (fun row => outcome_of_class (fst row)) rows))])%list).
Proof.
  unfold Store.setitem_outcome.
  rewrite (bindM_ok _ _ _ _ _ (read_run _ _ _ (nth_error_snoc _ _))).
  unfold Store.write. rewrite set_nth_snoc. reflexivity.
Qed.

(** The pie callback over the store computes the figure of [update_pie] and
    only adds objects to the store. *)
Lemma store_update_pie_run (entered_site : string) (rows : DataFrame) (h : Store.heap) :
  nth_error h Store.spacex_df = Some (Store.FrameObj rows) ->
  exists temps,
    Store.update_pie entered_site h
    = (Ok (update_pie rows entered_site), (h ++ temps)%list).
Proof.
  intro E. unfold Store.update_pie, update_pie.
  destruct (entered_site =? ALL)%string.
  - rewrite (bindM_ok _ _ _ _ _ (store_getitem_mask_run _ _ _ _ E)).
    rewrite (bindM_ok _ _ _ _ _
               (store_groupby_site_size_run _ _ _ (nth_error_snoc _ _))).
    rewrite (bindM_ok _ _ _ _ _ (read_run _ _ _ (nth_error_snoc _ _))).
    eexists. unfold Store.ret. rewrite <- app_assoc. reflexivity.
  - rewrite (bindM_ok _ _ _ _ _ (store_getitem_mask_run _ _ _ _ E)).
    rewrite (bindM_ok _ _ _ _ _
               (store_groupby_class_size_run _ _ _ (nth_error_snoc _ _))).
    rewrite (bindM_ok _ _ _ _ _ (store_setitem_outcome_run _ _ _)).
    rewrite (bindM_ok _ _ _ _ _ (read_run _ _ _ (nth_error_snoc _ _))).
    eexists. unfold Store.ret. rewrite <- app_assoc. reflexivity.
Qed.

(** The scatter callback over the store returns what [update_scatter]
    returns, the exception included, and only adds objects to the store. *)
Lemma store_update_scatter_run (entered_site : string) (selected_payload : list Q)
    (rows : DataFrame) (h : Store.heap) :
  nth_error h Store.spacex_df = Some (Store.FrameObj rows) ->
  exists temps,
    Store.update_scatter entered_site selected_payload h
    = (update_scatter rows entered_site selected_payload, (h ++ temps)%list).
Proof.
  intro E. unfold Store.update_scatter, update_scatter.
  destruct (unpack2 selected_payload) as [[low high] | e] eqn:U.
  - rewrite (bindM_ok _ _ _ _ (low, high) (eq_refl : Store.lift (Ok (low, high)) h = _)).
    simpl.
    rewrite (bindM_ok _ _ _ _ _ (store_getitem_mask_run _ _ _ _ E)).
    destruct (entered_site =? ALL)%string; simpl.
    + rewrite (bindM_ok _ _ _ _ (List.length h)
                 (eq_refl : Store.ret (List.length h) _ = _)).
      rewrite (bindM_ok _ _ _ _ _ (read_run _ _ _ (nth_error_snoc _ _))).
      eexists. reflexivity.
    + rewrite (bindM_ok _ _ _ _ _
                 (store_getitem_mask_run _ _ _ _ (nth_error_snoc _ _))).
      rewrite (bindM_ok _ _ _ _ _ (read_run _ _ _ (nth_error_snoc _ _))).
      eexists. unfold Store.ret. rewrite <- app_assoc. reflexivity.
  - exists []. rewrite app_nil_r. reflexivity.
Qed.

(** C9. A recomputation leaves the loaded table as it is: after the pie
    callback and the scatter callback have run, for any site and any payload
    selection, the object [spacex_df] names holds the same rows in the same
    order, every other object that existed before is unchanged as well, and
    the figures are those of [update_pie] and [update_scatter] on these
    rows. *)
Theorem callbacks_leave_spacex_df_unchanged
    (h : Store.heap) (rows : DataFrame)
    (entered_site : string) (selected_payload : list Q) :
  nth_error h Store.spacex_df = Some (Store.FrameObj rows) ->
  let pie := Store.update_pie entered_site h in
  let scatter := Store.update_scatter entered_site selected_payload (snd pie) in
  fst pie = Ok (update_pie rows entered_site) /\
  fst scatter = update_scatter rows entered_site selected_payload /\
  nth_error (snd scatter) Store.spacex_df = Some (Store.FrameObj rows) /\
  (forall r o, nth_error h r = Some o -> nth_error (snd scatter) r = Some o).
Proof.
  intro E.
  destruct (store_update_pie_run entered_site rows h E) as [t1 P].
  assert (E1 : nth_error (h ++ t1)%list Store.spacex_df = Some (Store.FrameObj rows))
    by (apply nth_error_grow, E).
  destruct (store_update_scatter_run entered_site selected_payload rows _ E1)
    as [t2 S].
  cbv zeta. rewrite P. cbn [fst snd]. rewrite S. cbn [fst snd].
  split; [reflexivity |]. split; [reflexivity |]. split.
  - apply nth_error_grow, E1.
  - intros r o I. apply nth_error_grow, nth_error_grow, I.
Qed.

(** After both callbacks on the example table, [spacex_df] still names the
    example table. *)
Lemma callbacks_leave_spacex_df_unchanged_witness :
  nth_error
    (snd (Store.update_scatter "CCAFS LC-40" [0 # 1; 600 # 1]
            (snd (Store.update_pie "CCAFS LC-40" (Store.loaded three_launches)))))
    Store.spacex_df
  = Some (Store.FrameObj three_launches).
Proof.
  exact (proj1 (proj2 (proj2
           (callbacks_leave_spacex_df_unchanged (Store.loaded three_launches)
              three_launches "CCAFS LC-40" [0 # 1; 600 # 1] eq_refl)))).
Defined.

(* ================================================================== *)
(** * Further properties *)

(** X1. The all-sites pie has exactly one slice for each site with a
    successful launch, and the slice of a site counts that site's successful
    launches: the pair (site, n) is a slice if and only if n is at least 1
    and is the number of records of that site with [class == 1]. *)
Theorem all_sites_pie_counts_exact (spacex_df : DataFrame) (s : string) (n : nat) :
  In (Some s, n)
    (combine (pie_names (update_pie spacex_df ALL))
       (pie_values (update_pie spacex_df ALL)))
  <-> (1 <= n)%nat
      /\ n = List.length
               (filter (fun r => (class r =? 1) && (Launch_Site r =? s)%string)
                  spacex_df).
Proof.
  simpl. rewrite combine_names_values.
  rewrite <- site_group_size.
  split.
  - intro I. apply in_map_iff in I. destruct I as [[s' m] [E I]].
    simpl in E. injection E as -> ->.
    apply groupby_size_count in I. tauto.
  - intros [P E].
    apply in_map_iff. exists (s, n). split; trivial.
    apply groupby_size_count. tauto.
Qed.

(** X2. The names of the all-sites pie are pairwise distinct: no site has
    two slices. *)
Theorem all_sites_pie_names_distinct (spacex_df : DataFrame) :
  NoDup (pie_names (update_pie spacex_df ALL)).
Proof.
  rewrite update_pie_all_names.
  pose proof (groupby_size_NoDup
                (map Launch_Site
                   (getitem_mask spacex_df (fun r => class r =? 1)))) as ND.
  fold (success_counts spacex_df) in ND.
  induction ND as [| k keys NI ND IH]; simpl; constructor; trivial.
  intro I. apply in_map_iff in I. destruct I as [k' [E I]].
  injection E as ->. contradiction.
Qed.

Lemma binary_keys (keys : list Z) :
  Sorted Z.lt keys ->
  (forall k, In k keys -> k = 0 \/ k = 1) ->
  keys = ((if existsb (Z.eqb 0) keys then [0] else [])
          ++ (if existsb (Z.eqb 1) keys then [1] else []))%list.
Proof.
  intros S B.
  apply Sorted_StronglySorted in S; [| intros x y z; apply Z.lt_trans].
  destruct keys as [| a [| b rest]].
  - reflexivity.
  - destruct (B a (or_introl eq_refl)) as [-> | ->]; reflexivity.
  - inversion S as [| ? ? S' F]; subst.
    inversion F as [| ? ? Lab F']; subst.
    destruct (B a (or_introl eq_refl)) as [-> | ->];
      destruct (B b (or_intror (or_introl eq_refl))) as [-> | ->]; try lia.
    destruct rest as [| c rest]; [reflexivity |].
    inversion S' as [| ? ? S'' G]; subst.
    inversion G as [| ? ? Lbc G']; subst.
    destruct (B c (or_intror (or_intror (or_introl eq_refl)))) as [-> | ->]; lia.
Qed.

(** X3. On a table whose classes are all 0 or 1, the single-site pie is
    determined by two numbers, the failures [nf] and the successes [ns] of
    the site: a slice "Failure" of size [nf] if there is a failure,
    followed by a slice "Success" of size [ns] if there is a success.  A
    site with a single outcome has a single slice, a site without records
    has none. *)
Theorem single_site_pie_binary (spacex_df : DataFrame) (s : string) :
  s <> ALL ->
  binary_classes spacex_df ->
  let nf :=
    List.length
      (filter (fun r => (Launch_Site r =? s)%string && (class r =? 0)) spacex_df) in
  let ns :=
    List.length
      (filter (fun r => (Launch_Site r =? s)%string && (class r =? 1)) spacex_df) in
  pie_names (update_pie spacex_df s)
  = ((if (nf =? 0)%nat then [] else [Some "Failure"])
     ++ (if (ns =? 0)%nat then [] else [Some "Success"]))%list
  /\ pie_values (update_pie spacex_df s)
     = ((if (nf =? 0)%nat then [] else [nf])
        ++ (if (ns =? 0)%nat then [] else [ns]))%list.
Proof.
  intros N B nf ns.
  rewrite (update_pie_site_names _ _ N), (update_pie_site_values _ _ N).
  unfold class_counts.
  set (keys_in :=
         map class (getitem_mask spacex_df (fun r => (Launch_Site r =? s)%string))).
  assert (E0 : group_size 0 keys_in = nf) by apply class_group_size.
  assert (E1 : group_size 1 keys_in = ns) by apply class_group_size.
  rewrite (groupby_size_rows keys_in) at 2.
  rewrite (map_map _ snd). simpl.
  assert (KS : map fst (groupby_size keys_in)
               = ((if (nf =? 0)%nat then [] else [0])
                  ++ (if (ns =? 0)%nat then [] else [1]))%list).
  { rewrite (binary_keys (map fst (groupby_size keys_in))).
    - assert (X : forall c n, group_size c keys_in = n ->
                existsb (Z.eqb c) (map fst (groupby_size keys_in))
                = negb (n =? 0)%nat).
      { intros c n E. apply eq_true_iff_eq.
        rewrite existsb_exists, negb_true_iff, Nat.eqb_neq. split.
        - intros [k [I Ek]]. apply Z.eqb_eq in Ek. subst k.
          apply groupby_size_key_size in I. lia.
        - intro P. exists c. split; [| apply Z.eqb_refl].
          apply groupby_size_key_size. lia. }
      rewrite (X 0 nf E0), (X 1 ns E1).
      destruct (nf =? 0)%nat, (ns =? 0)%nat; reflexivity.
    - exact (@groupby_size_sorted Z Z_KeyOrder keys_in).
    - intros k I. apply (proj1 (groupby_size_keys keys_in k)) in I.
      apply in_map_iff in I. destruct I as [r [<- I]].
      apply getitem_mask_In in I. apply B. tauto. }
  rewrite KS.
  destruct (nf =? 0)%nat, (ns =? 0)%nat; simpl; rewrite ?E0, ?E1; split; reflexivity.
Qed.

(** On the example table the first site has one failure and one success. *)
Lemma single_site_pie_binary_witness :
  pie_names (update_pie three_launches "CCAFS LC-40")
  = [Some "Failure"; Some "Success"]
  /\ pie_values (update_pie three_launches "CCAFS LC-40") = [1%nat; 1%nat].
Proof.
  apply (single_site_pie_binary three_launches "CCAFS LC-40").
  - discriminate.
  - intros r [<- | [<- | [<- | []]]]; simpl; auto.
Defined.

(** X4. A class that is neither 0 nor 1 is no key of the outcome
    dictionary: a site with a record of such a class gets a slice without a
    name (NaN). *)
Theorem single_site_pie_unmapped_class (spacex_df : DataFrame) (s : string)
    (r : LaunchRecord) :
  s <> ALL ->
  In r spacex_df ->
  Launch_Site r = s ->
  class r <> 0 ->
  class r <> 1 ->
  In None (pie_names (update_pie spacex_df s)).
Proof.
  intros N I S C0 C1.
  rewrite (update_pie_site_names _ _ N).
  apply in_map_iff. exists (class r). split.
  - unfold outcome_of_class.
    apply Z.eqb_neq in C0, C1. rewrite C0, C1. reflexivity.
  - unfold class_counts. apply groupby_size_keys.
    apply in_map, getitem_mask_In. split; trivial.
    apply String.eqb_eq, S.
Qed.

(** A launch recorded with class 2. *)
Lemma single_site_pie_unmapped_class_witness :
  In None
    (pie_names
       (update_pie [launch "VAFB SLC-4E" (500 # 1) 2 "v1.1"] "VAFB SLC-4E")).
Proof.
  apply (single_site_pie_unmapped_class
           [launch "VAFB SLC-4E" (500 # 1) 2 "v1.1"] "VAFB SLC-4E"
           (launch "VAFB SLC-4E" (500 # 1) 2 "v1.1")).
  - discriminate.
  - left. reflexivity.
  - reflexivity.
  - discriminate.
  - discriminate.
Defined.

(* ------------------------------------------------------------------ *)
(** ** More on the scatter callback *)

Lemma getitem_mask_subsequence (df : DataFrame) (p : LaunchRecord -> bool) :
  subsequence (getitem_mask df p) df.
Proof.
  unfold getitem_mask.
  induction df as [| r df IH]; simpl.
  - constructor.
  - destruct (p r); constructor; exact IH.
Qed.

(** The figure of the scatter callback, written out. *)
Lemma update_scatter_figure (spacex_df : DataFrame) (entered_site : string) (low high : Q) :
  update_scatter spacex_df entered_site [low; high]
  = Ok {| scatter_data :=
            getitem_mask spacex_df
              (fun r =>
                 (Qle_bool low (Payload_Mass_kg r) && Qle_bool (Payload_Mass_kg r) high)
                 && ((entered_site =? ALL)%string
                     || (Launch_Site r =? entered_site)%string));
          scatter_title :=
            "Payload vs Mission Outcome"
            ++ (if negb (entered_site =? ALL)%string
                then " — " ++ entered_site else "");
          scatter_hline := 1 # 2 |}.
Proof.
  unfold update_scatter. simpl. f_equal.
  destruct (entered_site =? ALL)%string; simpl; f_equal.
  - apply getitem_mask_ext. intros r _. rewrite andb_true_r. reflexivity.
  - apply getitem_mask_twice.
Qed.

(** X5. The scatter callback keeps the records in table order: its frame
    is a subsequence of the table, nothing is reordered or repeated. *)
Theorem scatter_keeps_table_order (spacex_df : DataFrame) (entered_site : string)
    (selected_payload : list Q) (fig : scatter_figure) :
  update_scatter spacex_df entered_site selected_payload = Ok fig ->
  subsequence (scatter_data fig) spacex_df.
Proof.
  destruct selected_payload as [| low [| high [| x rest]]]; try discriminate.
  rewrite update_scatter_figure. intro E. injection E as <-. simpl.
  apply getitem_mask_subsequence.
Qed.

(** On the example table, the range [0, 600] keeps the first and the third
    record. *)
Lemma scatter_keeps_table_order_witness :
  subsequence
    [launch "CCAFS LC-40" (500 # 1) 1 "v1.0"; launch "KSC LC-39A" (500 # 1) 1 "v1.1"]
    three_launches.
Proof.
  exact (scatter_keeps_table_order three_launches ALL [0 # 1; 600 # 1] _ eq_refl).
Defined.

(** X6. Narrowing the selection of an already filtered frame gives what the
    narrow selection gives on the table: with [low' <= low] and
    [high <= high'], the scatter callback run on the frame it returned for
    [low', high'] returns, for [low, high], the figure it returns on the whole
    table.  In particular running it again with the same selection changes
    nothing. *)
Theorem scatter_narrowing (spacex_df : DataFrame) (entered_site : string)
    (low' high' low high : Q) (wide : scatter_figure) :
  (low' <= low)%Q ->
  (high <= high')%Q ->
  update_scatter spacex_df entered_site [low'; high'] = Ok wide ->
  update_scatter (scatter_data wide) entered_site [low; high]
  = update_scatter spacex_df entered_site [low; high].
Proof.
  intros L H E.
  rewrite update_scatter_figure in E. injection E as <-. simpl.
  rewrite !update_scatter_figure. f_equal. f_equal.
  rewrite getitem_mask_twice. apply getitem_mask_ext. intros r _.
  destruct ((entered_site =? ALL)%string || (Launch_Site r =? entered_site)%string);
    rewrite ?andb_false_r; trivial.
  rewrite !andb_true_r.
  destruct (Qle_bool low (Payload_Mass_kg r) && Qle_bool (Payload_Mass_kg r) high) eqn:R;
    rewrite ?andb_false_r; trivial.
  rewrite andb_true_r.
  apply range_test in R. destruct R as [R1 R2].
  apply range_test. split.
  - apply Qle_trans with low; assumption.
  - apply Qle_trans with high; assumption.
Qed.

(** On the example table: [0, 1000] first, then [0, 600]. *)
Lemma scatter_narrowing_witness :
  exists wide,
    update_scatter three_launches ALL [0 # 1; 1000 # 1] = Ok wide /\
    update_scatter (scatter_data wide) ALL [0 # 1; 600 # 1]
    = update_scatter three_launches ALL [0 # 1; 600 # 1].
Proof.
  eexists. split; [reflexivity |].
  apply (scatter_narrowing three_launches ALL (0 # 1) (1000 # 1) (0 # 1) (600 # 1));
    [discriminate | discriminate | reflexivity].
Defined.

(** X8. The two charts agree: when the payload range covers every record
    of the table, the single-site pie and the scatter count the same
    records, and for ['ALL'] the pie counts the successes among the records
    of the scatter. *)
Theorem pie_and_scatter_agree (spacex_df : DataFrame) (entered_site : string)
    (low high : Q) (fig : scatter_figure) :
  (forall r, In r spacex_df ->
     (low <= Payload_Mass_kg r)%Q /\ (Payload_Mass_kg r <= high)%Q) ->
  update_scatter spacex_df entered_site [low; high] = Ok fig ->
  list_sum (pie_values (update_pie spacex_df entered_site))
  = if (entered_site =? ALL)%string
    then List.length (filter (fun r => class r =? 1) (scatter_data fig))
    else List.length (scatter_data fig).
Proof.
  intros C E.
  rewrite update_scatter_figure in E. injection E as <-. simpl.
  destruct (entered_site =? ALL)%string eqn:S.
  - apply String.eqb_eq in S. subst entered_site.
    rewrite update_pie_all_values. unfold success_counts.
    rewrite groupby_size_sum, length_map.
    match goal with
    | |- _ = List.length (filter _ (getitem_mask _ ?p)) =>
        rewrite (getitem_mask_all spacex_df p)
    end; [reflexivity |].
    intros r I. simpl. rewrite andb_true_r. apply range_test, C, I.
  - apply String.eqb_neq in S.
    rewrite (update_pie_site_values _ _ S). unfold class_counts.
    rewrite groupby_size_sum, length_map. f_equal.
    apply getitem_mask_ext. intros r I. simpl.
    rewrite (proj2 (range_test _ _ _) (C r I)). reflexivity.
Qed.

(** On the example table with the range [0, 1000]: two records at the
    first site. *)
Lemma pie_and_scatter_agree_witness :
  exists fig,
    update_scatter three_launches "CCAFS LC-40" [0 # 1; 1000 # 1] = Ok fig /\
    list_sum (pie_values (update_pie three_launches "CCAFS LC-40"))
    = List.length (scatter_data fig).
Proof.
  eexists. split; [reflexivity |].
  apply (pie_and_scatter_agree three_launches "CCAFS LC-40" (0 # 1) (1000 # 1)).
  - intros r [<- | [<- | [<- | []]]]; split; discriminate.
  - reflexivity.
Defined.

(* ------------------------------------------------------------------ *)
(** ** The loader and the payload slider *)

Lemma py_int_nonnegative (q : Q) :
  (0 <= q)%Q -> py_int (Some q) = Ok (Qfloor q).
Proof.
  destruct q as [n d]. unfold Qle. simpl. intro P. f_equal.
  apply Z.quot_div_nonneg; lia.
Qed.

(** X9. An empty table stops the program at the payload bounds and nowhere
    else: [int] is applied to the NaN that [max] returns and raises
    [ValueError], so no slider and no page are built, although both
    callbacks would return on the empty table, the pie without a slice and
    the scatter without a record. *)
Theorem empty_table_stops_at_payload_bounds
    (entered_site : string) (low high : Q) :
  max_payload [] = Raise ValueError
  /\ slider_payload_component [] = Raise ValueError
  /\ initial_state [] = Raise ValueError
  /\ pie_names (update_pie [] entered_site) = []
  /\ pie_values (update_pie [] entered_site) = []
  /\ exists fig,
       update_scatter [] entered_site [low; high] = Ok fig
       /\ scatter_data fig = [].
Proof.
  split; [reflexivity |]. split; [reflexivity |]. split; [reflexivity |].
  split; [| split].
  - unfold update_pie. destruct (entered_site =? ALL)%string; reflexivity.
  - unfold update_pie. destruct (entered_site =? ALL)%string; reflexivity.
  - rewrite update_scatter_figure. eexists. split; reflexivity.
Qed.

(** Without negative payloads the bounds are the floors of the lightest
    and of the heaviest payload. *)
Lemma payload_bounds_floor (spacex_df : DataFrame) (lo hi : Z) :
  payloads_nonnegative spacex_df ->
  min_payload spacex_df = Ok lo ->
  max_payload spacex_df = Ok hi ->
  exists mn mx,
    lo = Qfloor mn /\ hi = Qfloor mx /\ (0 <= mn)%Q /\ (mn <= mx)%Q
    /\ forall r, In r spacex_df ->
         (mn <= Payload_Mass_kg r)%Q /\ (Payload_Mass_kg r <= mx)%Q.
Proof.
  intros NN Elo Ehi.
  assert (NE : map Payload_Mass_kg spacex_df <> []).
  { destruct spacex_df; [discriminate Elo | discriminate]. }
  destruct (series_min_spec _ NE) as [mn [Emn [Imn Amn]]].
  destruct (series_max_spec _ NE) as [mx [Emx [Imx Amx]]].
  assert (Pmn : (0 <= mn)%Q).
  { apply in_map_iff in Imn. destruct Imn as [r [<- I]]. apply NN, I. }
  assert (Pmx : (0 <= mx)%Q).
  { apply in_map_iff in Imx. destruct Imx as [r [<- I]]. apply NN, I. }
  unfold min_payload in Elo. rewrite Emn, (py_int_nonnegative _ Pmn) in Elo.
  unfold max_payload in Ehi. rewrite Emx, (py_int_nonnegative _ Pmx) in Ehi.
  injection Elo as <-. injection Ehi as <-.
  exists mn, mx.
  split; [reflexivity |]. split; [reflexivity |]. split; [exact Pmn |].
  split; [apply Amx, Imn |].
  intros r I. split; [apply Amn | apply Amx]; apply in_map, I.
Qed.

(** X10. On a table without negative payloads the bounds are whole numbers
    with [0 <= min_payload <= max_payload]; [min_payload] is a lower bound
    of the payloads and every payload is below [max_payload + 1]. *)
Theorem payload_bounds_enclose (spacex_df : DataFrame) (lo hi : Z) :
  payloads_nonnegative spacex_df ->
  min_payload spacex_df = Ok lo ->
  max_payload spacex_df = Ok hi ->
  0 <= lo <= hi
  /\ forall r, In r spacex_df ->
       (inject_Z lo <= Payload_Mass_kg r)%Q
       /\ (Payload_Mass_kg r < inject_Z (hi + 1))%Q.
Proof.
  intros NN Elo Ehi.
  destruct (payload_bounds_floor _ _ _ NN Elo Ehi)
    as [mn [mx [-> [-> [P [L A]]]]]].
  split; [split |].
  - change 0 with (Qfloor 0). apply Qfloor_resp_le, P.
  - apply Qfloor_resp_le, L.
  - intros r I. destruct (A r I) as [A1 A2]. split.
    + apply Qle_trans with mn; [apply Qfloor_le | exact A1].
    + apply Qle_lt_trans with mx; [exact A2 | apply Qlt_floor].
Qed.

(** The table with the payloads 0 and 9600.5. *)
Lemma payload_bounds_enclose_witness :
  0 <= 0 <= 9600
  /\ forall r, In r fractional_maximum ->
       (inject_Z 0 <= Payload_Mass_kg r)%Q
       /\ (Payload_Mass_kg r < inject_Z (9600 + 1))%Q.
Proof.
  apply (payload_bounds_enclose fractional_maximum 0 9600).
  - intros r [<- | [<- | []]]; discriminate.
  - reflexivity.
  - reflexivity.
Defined.

(** X11. On a table without negative payloads the slider is built with its
    two handles on the track: [min <= low <= high <= max], where the track
    starts at 0 and ends at 10000 or at [max_payload] if that is larger. *)
Theorem slider_handles_on_track (spacex_df : DataFrame) (slider : RangeSlider) :
  payloads_nonnegative spacex_df ->
  slider_payload_component spacex_df = Ok slider ->
  exists low high,
    rs_value slider = [low; high]
    /\ min_payload spacex_df = Ok low
    /\ max_payload spacex_df = Ok high
    /\ rs_min slider <= low /\ low <= high /\ high <= rs_max slider
    /\ 10000 <= rs_max slider.
Proof.
  intros NN E. unfold slider_payload_component in E.
  destruct (max_payload spacex_df) as [hi |] eqn:Ehi; [| discriminate E].
  destruct (min_payload spacex_df) as [lo |] eqn:Elo; [| discriminate E].
  simpl in E. injection E as <-. simpl.
  destruct (payload_bounds_floor _ _ _ NN Elo Ehi)
    as [mn [mx [-> [-> [P [L _]]]]]].
  assert (0 <= Qfloor mn) by (change 0 with (Qfloor 0); apply Qfloor_resp_le, P).
  assert (Qfloor mn <= Qfloor mx) by apply Qfloor_resp_le, L.
  exists (Qfloor mn), (Qfloor mx). repeat split; lia.
Qed.

(** The table with the payloads 0 and 9600.5: the handles start at 0 and
    9600 on a track that ends at 10000. *)
Lemma slider_handles_on_track_witness :
  exists slider low high,
    slider_payload_component fractional_maximum = Ok slider
    /\ rs_value slider = [low; high]
    /\ rs_min slider <= low /\ low <= high /\ high <= rs_max slider.
Proof.
  eexists.
  destruct (slider_handles_on_track fractional_maximum _
              ltac:(intros r [<- | [<- | []]]; discriminate) eq_refl)
    as [low [high [V [_ [_ [A [B [C _]]]]]]]].
  exists low, high. repeat split; assumption.
Defined.

(* ------------------------------------------------------------------ *)
(** ** The marks of the slider *)

(** Membership in [range(start, stop, step)]. *)
Lemma py_range_In (start stop : Z) (st : positive) (x : Z) :
  In x (py_range start stop st)
  <-> start <= x < stop /\ (x - start) mod Zpos st = 0.
Proof.
  unfold py_range. rewrite in_map_iff.
  set (s := Zpos st). assert (Ps : 0 < s) by (unfold s; lia).
  set (n := (stop - start + s - 1) / s).
  split.
  - intros [i [<- I]]. apply in_seq in I.
    assert (Ln : Z.of_nat i + 1 <= n) by lia.
    assert (M : s * n <= stop - start + s - 1)
      by (apply Z.mul_div_le; exact Ps).
    replace (start + Z.of_nat i * s - start) with (Z.of_nat i * s) by lia.
    rewrite Z.mod_mul by lia.
    split; [| reflexivity]. nia.
  - intros [[L U] M].
    apply Z.mod_divide in M; [| lia]. destruct M as [q Eq].
    assert (Pq : 0 <= q) by nia.
    exists (Z.to_nat q). split; [lia |].
    apply in_seq. split; [lia |]. simpl.
    assert (q + 1 <= n).
    { apply Z.div_le_lower_bound; [exact Ps | nia]. }
    lia.
Qed.

Lemma py_range_sorted (start stop : Z) (st : positive) :
  Sorted Z.lt (py_range start stop st).
Proof.
  unfold py_range.
  generalize (Z.to_nat ((stop - start + Zpos st - 1) / Zpos st)) as n.
  generalize 0%nat as i.
  intros i n. revert i.
  induction n as [| n IH]; intro i; simpl.
  - constructor.
  - constructor; [apply IH |].
    destruct n; simpl; constructor. lia.
Qed.

(** X12. The slider has a mark at every multiple of 1200 from 0 up to, but
    not including, [max_payload + 1200], labelled with its decimal digits,
    and no other; the marks are listed in ascending order, each key
    once. *)
Theorem marks_at_multiples_of_step (hi k : Z) (label : string) :
  (In (k, label) (marks hi)
   <-> 0 <= k < hi + 1200 /\ k mod 1200 = 0 /\ label = py_str k)
  /\ Sorted Z.lt (map fst (marks hi)).
Proof.
  unfold marks. split.
  - rewrite in_map_iff. split.
    + intros [i [E I]]. injection E as -> <-.
      apply py_range_In in I. rewrite Z.sub_0_r in I.
      change (Zpos step) with 1200 in I. tauto.
    + intros [B [M ->]]. exists k. split; [reflexivity |].
      apply py_range_In. rewrite Z.sub_0_r.
      change (Zpos step) with 1200. tauto.
  - rewrite map_map. simpl. rewrite map_id. apply py_range_sorted.
Qed.

(** X13. When [max_payload] is not negative, the last mark is at or above
    it: the marks cover the whole range of the payloads.  When it is -1200
    or less there is no mark at all. *)
Theorem marks_reach_max_payload (hi : Z) :
  (0 <= hi ->
   exists k label, In (k, label) (marks hi) /\ hi <= k /\ k < hi + 1200)
  /\ (hi <= -1200 -> marks hi = []).
Proof.
  split.
  - intro P.
    pose proof (Z.div_mod (hi + 1199) 1200 ltac:(lia)) as D.
    pose proof (Z.mod_pos_bound (hi + 1199) 1200 ltac:(lia)) as B.
    set (q := (hi + 1199) / 1200) in *.
    exists (1200 * q), (py_str (1200 * q)).
    split; [| lia].
    unfold marks. apply in_map_iff. exists (1200 * q). split; trivial.
    apply py_range_In. rewrite Z.sub_0_r. change (Zpos step) with 1200.
    split; [lia |].
    rewrite Z.mul_comm. apply Z.mod_mul. lia.
  - intro N. unfold marks.
    destruct (py_range 0 (hi + Zpos step) step) as [| x rest] eqn:E; trivial.
    assert (I : In x (py_range 0 (hi + Zpos step) step)) by (rewrite E; left; trivial).
    apply py_range_In in I. change (Zpos step) with 1200 in I. lia.
Qed.

(** With [max_payload = 9600] the last mark is at 9600. *)
Lemma marks_reach_max_payload_witness :
  exists k label, In (k, label) (marks 9600) /\ 9600 <= k /\ k < 9600 + 1200.
Proof.
  apply (proj1 (marks_reach_max_payload 9600)). discriminate.
Defined.

(** X14. The label of a mark reads back as its key: parsing the decimal
    digits [str] produced gives the number again. *)
Theorem mark_label_reads_back (hi k : Z) (label : string) :
  In (k, label) (marks hi) ->
  option_map Z.of_int (NilZero.int_of_string label) = Some k.
Proof.
  unfold marks. intro I.
  apply in_map_iff in I. destruct I as [i [E _]]. injection E as -> <-.
  unfold py_str. rewrite NilZero.isi.
  - simpl. rewrite DecimalZ.of_to. reflexivity.
  - destruct k; simpl; try discriminate.
    intro E. injection E as E. exact (Unsigned.to_uint_nonnil _ E).
  - destruct k; simpl; try discriminate.
    intro E. injection E as E. exact (Unsigned.to_uint_nonnil _ E).
Qed.

(** The mark at 1200 is labelled "1200". *)
Lemma mark_label_reads_back_witness :
  option_map Z.of_int (NilZero.int_of_string "1200") = Some 1200.
Proof.
  apply (mark_label_reads_back 9600 1200 "1200").
  right. left. reflexivity.
Defined.

(* ------------------------------------------------------------------ *)
(** ** More on the callback wiring *)

Lemma dispatch_figures_current (spacex_df : DataFrame) (st : dash_state) (ev : event) :
  figures_current spacex_df st -> figures_current spacex_df (dispatch spacex_df st ev).
Proof.
  intros [P S]. destruct ev as [value | value]; split; simpl; trivial.
Qed.

Lemma initial_state_figures_current (spacex_df : DataFrame) (st : dash_state) :
  initial_state spacex_df = Ok st -> figures_current spacex_df st.
Proof.
  unfold initial_state. intro E.
  destruct (max_payload spacex_df) as [hi |]; [| discriminate E].
  destruct (min_payload spacex_df) as [lo |]; [| discriminate E].
  simpl in E. injection E as <-. split; reflexivity.
Qed.

Lemma run_figures_current (spacex_df : DataFrame) (evs : list event) (st : dash_state) :
  figures_current spacex_df st -> figures_current spacex_df (run spacex_df st evs).
Proof.
  unfold run. revert st.
  induction evs as [| ev evs IH]; intros st C; simpl.
  - exact C.
  - apply IH, dispatch_figures_current, C.
Qed.

Lemma run_controls (spacex_df : DataFrame) (evs : list event) (st : dash_state) :
  site_dropdown (run spacex_df st evs)
  = match last_site evs with Some v => v | None => site_dropdown st end
  /\ slider_payload (run spacex_df st evs)
     = match last_payload evs with Some v => v | None => slider_payload st end.
Proof.
  unfold run. revert st.
  induction evs as [| ev evs IH]; intro st.
  - split; reflexivity.
  - cbn [fold_left].
    destruct (IH (dispatch spacex_df st ev)) as [S P].
    rewrite S, P.
    destruct ev as [value | value]; simpl;
      destruct (last_site evs), (last_payload evs); split; reflexivity.
Qed.

(** X15. The page never shows a stale chart: from the page as first
    served, after any sequence of site and payload selections, the pie is the
    one [update_pie] returns for the last site selected and the scatter the
    one [update_scatter] returns for the last site and the last payload range
    selected (the initial values where a control was not touched); earlier
    selections leave no trace. *)
Theorem charts_follow_last_selection (spacex_df : DataFrame) (st0 : dash_state)
    (evs : list event) :
  initial_state spacex_df = Ok st0 ->
  let site := match last_site evs with Some v => v | None => ALL end in
  let value :=
    match last_payload evs with Some v => v | None => slider_payload st0 end in
  success_pie_chart (run spacex_df st0 evs) = update_pie spacex_df site
  /\ success_payload_scatter_chart (run spacex_df st0 evs)
     = update_scatter spacex_df site value.
Proof.
  intro E.
  assert (S0 : site_dropdown st0 = ALL).
  { unfold initial_state in E.
    destruct (max_payload spacex_df); [| discriminate E].
    destruct (min_payload spacex_df); [| discriminate E].
    simpl in E. injection E as <-. reflexivity. }
  assert (C : figures_current spacex_df (run spacex_df st0 evs))
    by (apply run_figures_current, initial_state_figures_current, E).
  destruct C as [P S].
  destruct (run_controls spacex_df evs st0) as [Rs Rp].
  rewrite S0 in Rs. simpl. rewrite P, S, Rs, Rp. split; reflexivity.
Qed.

(** On the example table: two site selections and a payload selection in
    between. *)
Lemma charts_follow_last_selection_witness :
  success_pie_chart
    (run three_launches three_launches_page
       [SiteSelected "KSC LC-39A"; PayloadSelected [0 # 1; 600 # 1];
        SiteSelected "CCAFS LC-40"])
  = update_pie three_launches "CCAFS LC-40"
  /\ success_payload_scatter_chart
       (run three_launches three_launches_page
          [SiteSelected "KSC LC-39A"; PayloadSelected [0 # 1; 600 # 1];
           SiteSelected "CCAFS LC-40"])
     = update_scatter three_launches "CCAFS LC-40" [0 # 1; 600 # 1].
Proof.
  exact (charts_follow_last_selection three_launches three_launches_page
           [SiteSelected "KSC LC-39A"; PayloadSelected [0 # 1; 600 # 1];
            SiteSelected "CCAFS LC-40"] eq_refl).
Defined.

(* ------------------------------------------------------------------ *)
(** ** The two modes of the pie *)

(** X16. The two modes of the pie agree on the successes of a site: the
    all-sites pie has the slice (s, n) exactly when the pie of the site [s]
    has the slice ("Success", n). *)
Theorem pie_modes_agree_on_successes (spacex_df : DataFrame) (s : string) (n : nat) :
  s <> ALL ->
  (In (Some s, n)
     (combine (pie_names (update_pie spacex_df ALL))
        (pie_values (update_pie spacex_df ALL)))
   <-> In (Some "Success", n)
         (combine (pie_names (update_pie spacex_df s))
            (pie_values (update_pie spacex_df s)))).
Proof.
  intro N.
  rewrite update_pie_all_names, update_pie_all_values.
  rewrite (update_pie_site_names _ _ N), (update_pie_site_values _ _ N).
  rewrite !map_map, !combine_names_values, !in_map_iff.
  assert (F : List.length
                (filter (fun r => (class r =? 1) && (Launch_Site r =? s)%string)
                   spacex_df)
              = List.length
                  (filter (fun r => (Launch_Site r =? s)%string && (class r =? 1))
                     spacex_df)).
  { f_equal. apply filter_ext. intro r. apply andb_comm. }
  split.
  - intros [[s' m] [E I]]. simpl in E. injection E as -> ->.
    apply success_counts_row in I. rewrite F in I.
    exists (1, n). split; [reflexivity |].
    apply class_counts_row, I.
  - intros [[c m] [E I]]. simpl in E. injection E as Ec ->.
    assert (c = 1) as ->.
    { unfold outcome_of_class in Ec.
      destruct (c =? 1) eqn:C1; [apply Z.eqb_eq, C1 |].
      destruct (c =? 0); discriminate Ec. }
    apply class_counts_row in I. rewrite <- F in I.
    exists (s, n). split; [reflexivity |].
    apply success_counts_row, I.
Qed.

(** On the example table: one success at the first site in both pies. *)
Lemma pie_modes_agree_on_successes_witness :
  In (Some "CCAFS LC-40", 1%nat)
    (combine (pie_names (update_pie three_launches ALL))
       (pie_values (update_pie three_launches ALL)))
  <-> In (Some "Success", 1%nat)
        (combine (pie_names (update_pie three_launches "CCAFS LC-40"))
           (pie_values (update_pie three_launches "CCAFS LC-40"))).
Proof.
  apply (pie_modes_agree_on_successes three_launches "CCAFS LC-40" 1%nat).
  discriminate.
Defined.
